(** * A rope (lumenwrites/rope-challenge): shallow embedding and properties

    The embedding follows [src/lib/rope.ts] and its later revision
    [src/unnamed/part_000].  The two files share the classes [RopeLeaf] and
    [RopeBranch], [createRopeFromMap], [splitAt], [getSize],
    [concatenateTwoMaps], [concatenateMapList] and [insert]; they differ in
    the leaf case of [splitHelper] and in [deleteRange], which only the
    later revision implements.

    Conventions of the embedding:
    - a JavaScript string is a list of characters ([list ascii] stands for
      the sequence of code units; no property depends on what a character
      is), its [length] a natural number read as an integer;
    - a JavaScript number that holds an index or a size is an integer [Z]
      (fractional and non-finite numbers are left out);
    - [null] and [undefined] (an absent child, a missing property, an
      element read past the end of an array) are [None];
    - a dereference of [undefined] raises [TypeError]; the functions that can
      raise return a [result];
    - [splitHelper] mutates the object tree that [toMap] has just allocated
      and pushes onto the array [list]; the tree has no sharing and a pushed
      subtree is not written to afterwards, so the mutation is rendered by
      returning the updated node together with the extended array. *)

From Stdlib Require Import ZArith List Ascii String Bool Lia.
Import ListNotations.

Local Open Scope Z_scope.

#[local] Set Warnings "-register-all".

(** ** Strings *)

Definition text := list ascii.

Definition str (s : string) : text := list_ascii_of_string s.

(** [s.length] *)
Definition len (s : text) : Z := Z.of_nat (List.length s).

(** An integer argument of [substring] is clamped to [0 .. s.length]. *)
Definition clampIndex (s : text) (i : Z) : nat :=
  Nat.min (Z.to_nat i) (List.length s).

(** [s.substring(a, b)] and, with [b = None], [s.substring(a)]: both bounds
    are clamped and swapped when the first exceeds the second. *)
Definition substring (s : text) (a : Z) (b : option Z) : text :=
  let a' := clampIndex s a in
  let b' := match b with Some b => clampIndex s b | None => List.length s end in
  let lo := Nat.min a' b' in
  let hi := Nat.max a' b' in
  firstn (hi - lo) (skipn lo s).

(** ** Exceptions *)

Inductive exn : Set := TypeError.

Inductive result (A : Type) : Type :=
| Ok (a : A)
| Err (e : exn).
Arguments Ok {A} a.
Arguments Err {A} e.

Definition bind {A B : Type} (m : result A) (k : A -> result B) : result B :=
  match m with
  | Ok a => k a
  | Err e => Err e
  end.

Notation "x <- m ;; k" := (bind m (fun x => k))
  (at level 61, m at next level, right associativity).
Notation "' p <- m ;; k" := (bind m (fun x => let 'p := x in k))
  (at level 61, p pattern, m at next level, right associativity).

(** ** The map representation (types [MapLeaf], [MapBranch]) *)

Inductive MapRepresentation : Type :=
| MapLeaf (text : text)
| MapBranch (left right : option MapRepresentation) (size : Z).

(** ** The rope classes *)

Inductive Rope : Type :=
| RopeLeaf (text : text)
| RopeBranch (left right : option Rope) (cachedSize : Z).

Module Rope.

(** [size()] of either class *)
Definition size (r : Rope) : Z :=
  match r with
  | RopeLeaf t => len t
  | RopeBranch _ _ cachedSize => cachedSize
  end.

(** [left ? left.size() : 0] *)
Definition sizeOr0 (o : option Rope) : Z :=
  match o with
  | Some r => size r
  | None => 0
  end.

(** [new RopeBranch(left, right)] *)
Definition new (left right : option Rope) : Rope :=
  RopeBranch left right (sizeOr0 left + sizeOr0 right).

(** [height()], with the bodies of [leftHeight()] and [rightHeight()]
    written in place. *)
Fixpoint height (r : Rope) : Z :=
  match r with
  | RopeLeaf _ => 1
  | RopeBranch l r _ =>
      1 + Z.max (match l with Some x => height x | None => 0 end)
                (match r with Some x => height x | None => 0 end)
  end.

Definition leftHeight (left : option Rope) : Z :=
  match left with Some x => height x | None => 0 end.

Definition rightHeight (right : option Rope) : Z :=
  match right with Some x => height x | None => 0 end.

Fixpoint isBalanced (r : Rope) : bool :=
  match r with
  | RopeLeaf _ => true
  | RopeBranch l r _ =>
      let leftBalanced := match l with Some x => isBalanced x | None => true end in
      let rightBalanced := match r with Some x => isBalanced x | None => true end in
      leftBalanced && rightBalanced
        && (Z.abs (leftHeight l - rightHeight r) <? 2)
  end.

Fixpoint toMap (r : Rope) : MapRepresentation :=
  match r with
  | RopeLeaf t => MapLeaf t
  | RopeBranch l r cachedSize =>
      MapBranch (match l with Some x => Some (toMap x) | None => None end)
                (match r with Some x => Some (toMap x) | None => None end)
                cachedSize
  end.

Fixpoint toString (r : Rope) : text :=
  match r with
  | RopeLeaf t => t
  | RopeBranch l r _ =>
      (match l with Some x => toString x | None => [] end)
        ++ (match r with Some x => toString x | None => [] end)
  end.

End Rope.

(** ** Functions on map representations *)

Fixpoint createRopeFromMap (map : MapRepresentation) : Rope :=
  match map with
  | MapLeaf t => RopeLeaf t
  | MapBranch l r _ =>
      Rope.new (match l with Some x => Some (createRopeFromMap x) | None => None end)
               (match r with Some x => Some (createRopeFromMap x) | None => None end)
  end.

(** [createRopeFromMap] applied to a value that may be [undefined]:
    reading [map.kind] raises. *)
Definition createRopeFromMapU (map : option MapRepresentation) : result Rope :=
  match map with
  | Some m => Ok (createRopeFromMap m)
  | None => Err TypeError
  end.

(** [getSize(map)]; the argument may be [undefined], where [map.kind]
    raises. *)
Definition getSize (map : option MapRepresentation) : result Z :=
  match map with
  | None => Err TypeError
  | Some (MapLeaf t) => Ok (len t)
  | Some (MapBranch _ _ size) => Ok size
  end.

Definition concatenateTwoMaps (map1 map2 : option MapRepresentation)
  : result MapRepresentation :=
  s1 <- getSize map1 ;;
  s2 <- getSize map2 ;;
  Ok (MapBranch map1 map2 (s1 + s2)).

(** The loop of [concatenateMapList], from index 1 on. *)
Fixpoint concatenateLoop (leftTree : option MapRepresentation)
    (rest : list (option MapRepresentation)) : result (option MapRepresentation) :=
  match rest with
  | [] => Ok leftTree
  | m :: rest' =>
      t <- concatenateTwoMaps leftTree m ;;
      concatenateLoop (Some t) rest'
  end.

(** [list[0]] of an empty array is [undefined]. *)
Definition concatenateMapList (list : list (option MapRepresentation))
  : result (option MapRepresentation) :=
  match list with
  | [] => Ok None
  | first :: rest => concatenateLoop first rest
  end.

(** ** Split *)

(** The two revisions of the source. *)
Inductive revision : Set :=
| LibRope    (* src/lib/rope.ts *)
| Part000.   (* src/unnamed/part_000 *)

(** What the leaf case of [splitHelper] returns: rope.ts wraps the left
    fragment in a branch without a right child, part_000 returns the
    fragment. *)
Definition leafCaseResult (rv : revision) (leftLeafText : text) : MapRepresentation :=
  match rv with
  | LibRope => MapBranch (Some (MapLeaf leftLeafText)) None (len leftLeafText)
  | Part000 => MapLeaf leftLeafText
  end.

Fixpoint splitHelper (rv : revision) (map : MapRepresentation) (position : Z)
    (list : list (option MapRepresentation))
  : result (MapRepresentation * Datatypes.list (option MapRepresentation)) :=
  match map with
  | MapLeaf t =>
      let leftLeafNode := substring t 0 (Some (position + 1)) in
      let rightLeafNode := substring t (position + 1) None in
      Ok (leafCaseResult rv leftLeafNode, list ++ [Some (MapLeaf rightLeafNode)])
  | MapBranch l r size =>
      leftSize <- getSize l ;;
      if leftSize =? position + 1 then
        let list := list ++ [r] in
        rightSize <- getSize r ;;
        Ok (MapBranch l None (size - rightSize), list)
      else if leftSize >? position + 1 then
        match l with
        | None => Err TypeError
        | Some x =>
            '(leftSubtreeAns, list) <- splitHelper rv x position list ;;
            let list := list ++ [r] in
            newSize <- getSize (Some leftSubtreeAns) ;;
            Ok (MapBranch (Some leftSubtreeAns) None newSize, list)
        end
      else
        match r with
        | None => Err TypeError
        | Some x =>
            '(rightSubtreeAns, list) <- splitHelper rv x (position - leftSize) list ;;
            newSize <- getSize (Some rightSubtreeAns) ;;
            Ok (MapBranch l (Some rightSubtreeAns) newSize, list)
        end
  end.

Definition splitAt (rv : revision) (rope : Rope) (position : Z)
  : result (Rope * Rope) :=
  let map := Rope.toMap rope in
  '(leftMap, list) <- splitHelper rv map position [] ;;
  let left := createRopeFromMap leftMap in
  rightMap <- concatenateMapList list ;;
  right <- createRopeFromMapU rightMap ;;
  Ok (left, right).

(** ** Edits *)

Definition insert (rv : revision) (rope : Rope) (t : text) (location : Z)
  : result Rope :=
  let textRope := RopeLeaf t in
  if location =? 0 then
    m <- concatenateTwoMaps (Some (Rope.toMap textRope)) (Some (Rope.toMap rope)) ;;
    Ok (createRopeFromMap m)
  else
    '(left_, right_) <- splitAt rv rope (location - 1) ;;
    let list := [Some (Rope.toMap left_); Some (Rope.toMap textRope);
                 Some (Rope.toMap right_)] in
    constructedMap <- concatenateMapList list ;;
    createRopeFromMapU constructedMap.

(** [deleteRange] of part_000 (in rope.ts the body is empty). *)
Definition deleteRange (rope : Rope) (start end_ : Z) : result Rope :=
  '(leftStartSplit, rightStartSplit) <- splitAt Part000 rope (start - 1) ;;
  leftSize <- getSize (Some (Rope.toMap leftStartSplit)) ;;
  '(leftEndSplit, rightEndSplit) <-
      splitAt Part000 rightStartSplit (end_ - leftSize - 1) ;;
  let list := [Some (Rope.toMap leftStartSplit); Some (Rope.toMap rightEndSplit)] in
  constructedMap <- concatenateMapList list ;;
  createRopeFromMapU constructedMap.

(** ** Predicates on ropes and maps *)

Definition optb {A : Type} (f : A -> bool) (o : option A) : bool :=
  match o with
  | Some x => f x
  | None => true
  end.

Definition optP {A : Type} (P : A -> Prop) (o : option A) : Prop :=
  match o with
  | Some x => P x
  | None => True
  end.

(** The size invariant: every branch caches the sum of the sizes of its
    children, an absent child counting for 0.  It is what the constructor
    of [RopeBranch] establishes. *)
Fixpoint sizeInvariant (r : Rope) : bool :=
  match r with
  | RopeLeaf _ => true
  | RopeBranch l r cachedSize =>
      (cachedSize =? Rope.sizeOr0 l + Rope.sizeOr0 r)
        && match l with Some x => sizeInvariant x | None => true end
        && match r with Some x => sizeInvariant x | None => true end
  end.

(** Every branch of the rope has both of its children. *)
Fixpoint bothChildren (r : Rope) : bool :=
  match r with
  | RopeLeaf _ => true
  | RopeBranch (Some x) (Some y) _ => bothChildren x && bothChildren y
  | RopeBranch _ _ _ => false
  end.

(** Every branch met when walking from the root through right children
    down to a leaf has both of its children. *)
Fixpoint rightSpine (r : Rope) : bool :=
  match r with
  | RopeLeaf _ => true
  | RopeBranch (Some _) (Some y) _ => rightSpine y
  | RopeBranch _ _ _ => false
  end.

(** The text of a map, read like [toString] reads a rope. *)
Fixpoint mapText (m : MapRepresentation) : text :=
  match m with
  | MapLeaf t => t
  | MapBranch l r _ =>
      (match l with Some x => mapText x | None => [] end)
        ++ (match r with Some x => mapText x | None => [] end)
  end.

Definition optText (o : option MapRepresentation) : text :=
  match o with
  | Some m => mapText m
  | None => []
  end.

(** The text of the detached fragments, in array order. *)
Definition listText (l : list (option MapRepresentation)) : text :=
  flat_map optText l.

(** The [size] property of every branch of the map is the length of its
    text. *)
Fixpoint mapSizes (m : MapRepresentation) : Prop :=
  match m with
  | MapLeaf _ => True
  | MapBranch l r size =>
      size = len (optText l ++ optText r)
      /\ match l with Some x => mapSizes x | None => True end
      /\ match r with Some x => mapSizes x | None => True end
  end.

Fixpoint mapFull (m : MapRepresentation) : Prop :=
  match m with
  | MapLeaf _ => True
  | MapBranch (Some x) (Some y) _ => mapFull x /\ mapFull y
  | MapBranch _ _ _ => False
  end.

Fixpoint mapSpine (m : MapRepresentation) : Prop :=
  match m with
  | MapLeaf _ => True
  | MapBranch (Some _) (Some y) _ => mapSpine y
  | MapBranch _ _ _ => False
  end.

(** A detached fragment that a later concatenation and a later split
    accept. *)
Definition detachedOk (o : option MapRepresentation) : Prop :=
  exists d, o = Some d /\ mapSizes d /\ mapFull d.

(** ** Reference notions the properties are stated against *)

(** Plain sequence splicing: the first [location] characters, then [t],
    then the rest. *)
Definition spliceAt (s t : text) (location : nat) : text :=
  firstn location s ++ t ++ skipn location s.

(** The sequence without the characters at the indices [start .. end_],
    both included. *)
Definition removeInclusive (s : text) (start end_ : nat) : text :=
  firstn start s ++ skipn (S end_) s.

(** The sequence without the characters at the indices from [start] up to,
    and not including, [end_]. *)
Definition removeHalfOpen (s : text) (start end_ : nat) : text :=
  firstn start s ++ skipn end_ s.

(** Balance as the data model words it: a leaf is balanced; a branch is
    balanced when its children, where present, are balanced and their
    heights, 0 for an absent child, differ by less than 2. *)
Inductive Balanced : Rope -> Prop :=
| Balanced_leaf (t : text) : Balanced (RopeLeaf t)
| Balanced_branch (l r : option Rope) (s : Z) :
    (forall x, l = Some x -> Balanced x) ->
    (forall x, r = Some x -> Balanced x) ->
    Z.abs (Rope.leftHeight l - Rope.rightHeight r) < 2 ->
    Balanced (RopeBranch l r s).

(** The ropes that the exported operations hand out: the two constructors,
    [createRopeFromMap], both sides of a split, [insert] and
    [deleteRange]. *)
Inductive produced : Rope -> Prop :=
| produced_leaf (t : text) : produced (RopeLeaf t)
| produced_branch (l r : option Rope) :
    (forall x, l = Some x -> produced x) ->
    (forall x, r = Some x -> produced x) ->
    produced (Rope.new l r)
| produced_fromMap (m : MapRepresentation) : produced (createRopeFromMap m)
| produced_split_left (rv : revision) (r : Rope) (p : Z) (a b : Rope) :
    splitAt rv r p = Ok (a, b) -> produced a
| produced_split_right (rv : revision) (r : Rope) (p : Z) (a b : Rope) :
    splitAt rv r p = Ok (a, b) -> produced b
| produced_insert (rv : revision) (r : Rope) (t : text) (location : Z) (r' : Rope) :
    insert rv r t location = Ok r' -> produced r'
| produced_deleteRange (r : Rope) (start end_ : Z) (r' : Rope) :
    deleteRange r start end_ = Ok r' -> produced r'.

(** Two runs of a split agree: both raise the same exception, or both
    return, with sides of equal text and equal size. *)
Definition sameSplit (x y : result (Rope * Rope)) : Prop :=
  match x, y with
  | Ok (l1, r1), Ok (l2, r2) =>
      Rope.toString l1 = Rope.toString l2 /\ Rope.size l1 = Rope.size l2
      /\ Rope.toString r1 = Rope.toString r2 /\ Rope.size r1 = Rope.size r2
  | Err e1, Err e2 => e1 = e2
  | _, _ => False
  end.

(** Two runs of [splitHelper] agree: the same exception, or the same
    detached fragments and returned maps of equal text. *)
Definition sameHelper
    (x y : result (MapRepresentation * list (option MapRepresentation))) : Prop :=
  match x, y with
  | Ok (m1, l1), Ok (m2, l2) => mapText m1 = mapText m2 /\ l1 = l2
  | Err e1, Err e2 => e1 = e2
  | _, _ => False
  end.

(** Two runs of [insert] agree: both raise the same exception, or both
    return ropes of equal text and equal size. *)
Definition sameRope (x y : result Rope) : Prop :=
  match x, y with
  | Ok r1, Ok r2 =>
      Rope.toString r1 = Rope.toString r2 /\ Rope.size r1 = Rope.size r2
  | Err e1, Err e2 => e1 = e2
  | _, _ => False
  end.

(** The sum of the sizes of the children of a map node, as [getSize] reads
    them, an absent child counting for 0. *)
Definition childrenSize (m : MapRepresentation) : Z :=
  match m with
  | MapLeaf t => len t
  | MapBranch l r _ =>
      (match getSize l with Ok n => n | Err _ => 0 end)
      + (match getSize r with Ok n => n | Err _ => 0 end)
  end.

(** Every branch of a map records the sum of the sizes of its children. *)
Fixpoint recordedSizesTrue (m : MapRepresentation) : bool :=
  match m with
  | MapLeaf _ => true
  | MapBranch l r size =>
      (size =? childrenSize m)
        && match l with Some x => recordedSizesTrue x | None => true end
        && match r with Some x => recordedSizesTrue x | None => true end
  end.

(** ** Ropes used as concrete inputs *)

Definition helloWorld : Rope :=
  Rope.new (Some (RopeLeaf (str "Hello "))) (Some (RopeLeaf (str "World"))).

(** [new RopeBranch(new RopeLeaf("a"), null)], also what
    [createRopeFromMap] builds from a branch map without [right]. *)
Definition branchWithoutRight : Rope :=
  Rope.new (Some (RopeLeaf (str "a"))) None.

(** [new RopeBranch(new RopeLeaf("abc"), new RopeLeaf("d"))] *)
Definition abc_d : Rope :=
  Rope.new (Some (RopeLeaf (str "abc"))) (Some (RopeLeaf (str "d"))).

(** [new RopeBranch(new RopeLeaf("x"), new RopeLeaf("ab"))] *)
Definition x_ab : Rope :=
  Rope.new (Some (RopeLeaf (str "x"))) (Some (RopeLeaf (str "ab"))).

(** The rope [insert(new RopeLeaf("abcd"), "X", 2)] of rope.ts. *)
Definition abXcd_lib : Rope :=
  RopeBranch
    (Some (RopeBranch
             (Some (RopeBranch (Some (RopeLeaf (str "ab"))) None 2))
             (Some (RopeLeaf (str "X"))) 3))
    (Some (RopeLeaf (str "cd"))) 5.

(** The rope [insert(abc_d, "X", 2)] of part_000. *)
Definition abXcd_rev : Rope :=
  RopeBranch
    (Some (RopeBranch
             (Some (RopeBranch (Some (RopeLeaf (str "ab"))) None 2))
             (Some (RopeLeaf (str "X"))) 3))
    (Some (RopeBranch (Some (RopeLeaf (str "c"))) (Some (RopeLeaf (str "d"))) 2)) 5.

(** ** Induction over the nested trees *)

Section RopeInduction.
Variable P : Rope -> Prop.
Hypothesis Hleaf : forall t, P (RopeLeaf t).
Hypothesis Hbranch : forall l r s, optP P l -> optP P r -> P (RopeBranch l r s).

Fixpoint Rope_induction (r : Rope) : P r :=
  match r with
  | RopeLeaf t => Hleaf t
  | RopeBranch l r s =>
      Hbranch l r s
        (match l return optP P l with Some x => Rope_induction x | None => I end)
        (match r return optP P r with Some x => Rope_induction x | None => I end)
  end.
End RopeInduction.

Section MapInduction.
Variable P : MapRepresentation -> Prop.
Hypothesis Hleaf : forall t, P (MapLeaf t).
Hypothesis Hbranch : forall l r s, optP P l -> optP P r -> P (MapBranch l r s).

Fixpoint Map_induction (m : MapRepresentation) : P m :=
  match m with
  | MapLeaf t => Hleaf t
  | MapBranch l r s =>
      Hbranch l r s
        (match l return optP P l with Some x => Map_induction x | None => I end)
        (match r return optP P r with Some x => Map_induction x | None => I end)
  end.
End MapInduction.

(** Case analysis on the two children of a branch. *)
Ltac opt_cases l r := destruct l as [?x|]; destruct r as [?y|]; cbn in *.

(** ** Strings: [substring] as [firstn] and [skipn] *)

Lemma firstn_min_length (A : Type) (n : nat) (l : list A) :
  firstn (Nat.min n (List.length l)) l = firstn n l.
Proof.
  destruct (Nat.le_ge_cases n (List.length l)) as [H | H].
  - now rewrite Nat.min_l.
  - rewrite Nat.min_r by exact H.
    now rewrite firstn_all, firstn_all2.
Qed.

Lemma substring_prefix (t : text) (e : Z) :
  substring t 0 (Some e) = firstn (Z.to_nat e) t.
Proof.
  unfold substring, clampIndex. cbn [Z.to_nat Nat.min].
  rewrite Nat.max_r, Nat.sub_0_r by lia.
  cbn [skipn]. apply firstn_min_length.
Qed.

Lemma substring_suffix (t : text) (a : Z) :
  substring t a None = skipn (Z.to_nat a) t.
Proof.
  unfold substring, clampIndex.
  set (n := Z.to_nat a).
  destruct (Nat.le_ge_cases n (List.length t)) as [H | H].
  - rewrite (Nat.min_l n) by exact H.
    rewrite Nat.min_l, Nat.max_r by exact H.
    apply firstn_all2. rewrite length_skipn. lia.
  - rewrite (Nat.min_r n) by exact H.
    rewrite Nat.min_id, Nat.max_id, Nat.sub_diag.
    rewrite skipn_all, skipn_all2 by exact H. reflexivity.
Qed.

Lemma len_app (a b : text) : len (a ++ b) = len a + len b.
Proof. unfold len. rewrite length_app. lia. Qed.

Lemma len_nonneg (a : text) : 0 <= len a.
Proof. unfold len. lia. Qed.


(** ** Ropes and maps: text, sizes, shape *)

Lemma toString_createRopeFromMap (m : MapRepresentation) :
  Rope.toString (createRopeFromMap m) = mapText m.
Proof.
  induction m as [t | l r s IHl IHr] using Map_induction; [reflexivity|].
  opt_cases l r; congruence.
Qed.

Lemma size_createRopeFromMap (m : MapRepresentation) :
  Rope.size (createRopeFromMap m) = len (mapText m).
Proof.
  induction m as [t | l r s IHl IHr] using Map_induction; [reflexivity|].
  opt_cases l r; rewrite ?len_app, ?IHl, ?IHr; cbn; lia.
Qed.

Lemma sizeInvariant_createRopeFromMap (m : MapRepresentation) :
  sizeInvariant (createRopeFromMap m) = true.
Proof.
  induction m as [t | l r s IHl IHr] using Map_induction; [reflexivity|].
  unfold createRopeFromMap; fold createRopeFromMap. unfold Rope.new.
  cbn [sizeInvariant]. rewrite Z.eqb_refl.
  opt_cases l r; rewrite ?IHl, ?IHr; reflexivity.
Qed.

Lemma bothChildren_createRopeFromMap (m : MapRepresentation) :
  mapFull m -> bothChildren (createRopeFromMap m) = true.
Proof.
  induction m as [t | l r s IHl IHr] using Map_induction; [reflexivity|].
  opt_cases l r; try tauto.
  intros [Hx Hy]. now rewrite IHl, IHr.
Qed.

Lemma mapText_toMap (r : Rope) : mapText (Rope.toMap r) = Rope.toString r.
Proof.
  induction r as [t | l r s IHl IHr] using Rope_induction; [reflexivity|].
  opt_cases l r; congruence.
Qed.

Lemma sizeInvariant_branch (l r : option Rope) (s : Z) :
  sizeInvariant (RopeBranch l r s) = true ->
  s = Rope.sizeOr0 l + Rope.sizeOr0 r
  /\ optb sizeInvariant l = true /\ optb sizeInvariant r = true.
Proof.
  cbn. intros H.
  apply andb_prop in H as [H Hr]. apply andb_prop in H as [Hs Hl].
  apply Z.eqb_eq in Hs. now destruct l, r.
Qed.

Lemma size_toString (r : Rope) :
  sizeInvariant r = true -> Rope.size r = len (Rope.toString r).
Proof.
  induction r as [t | l r s IHl IHr] using Rope_induction; [reflexivity|].
  intros H. apply sizeInvariant_branch in H as (Hs & Hl & Hr).
  cbn [Rope.size Rope.toString]. rewrite len_app. subst s.
  opt_cases l r; rewrite ?IHl, ?IHr by assumption; reflexivity.
Qed.

Lemma mapSizes_toMap (r : Rope) :
  sizeInvariant r = true -> mapSizes (Rope.toMap r).
Proof.
  induction r as [t | l r s IHl IHr] using Rope_induction; [exact (fun _ => I)|].
  intros H. apply sizeInvariant_branch in H as (Hs & Hl & Hr).
  cbn [Rope.toMap mapSizes]. rewrite len_app. subst s.
  opt_cases l r; rewrite ?mapText_toMap, <- ?size_toString by assumption;
    auto.
Qed.

Lemma mapFull_toMap (r : Rope) : bothChildren r = true -> mapFull (Rope.toMap r).
Proof.
  induction r as [t | l r s IHl IHr] using Rope_induction; [exact (fun _ => I)|].
  opt_cases l r; try discriminate.
  intros H. apply andb_prop in H as [Hx Hy]. auto.
Qed.

Lemma mapSpine_toMap (r : Rope) : rightSpine r = true -> mapSpine (Rope.toMap r).
Proof.
  induction r as [t | l r s IHl IHr] using Rope_induction; [exact (fun _ => I)|].
  opt_cases l r; try discriminate. auto.
Qed.

Lemma getSize_mapSizes (m : MapRepresentation) :
  mapSizes m -> getSize (Some m) = Ok (len (mapText m)).
Proof.
  destruct m as [t | l r s]; [reflexivity|].
  cbn. intros (-> & _). reflexivity.
Qed.

Lemma getSize_defined (m : MapRepresentation) :
  exists n, getSize (Some m) = Ok n.
Proof. destruct m; cbn; eauto. Qed.

Lemma bothChildren_rightSpine (r : Rope) :
  bothChildren r = true -> rightSpine r = true.
Proof.
  induction r as [t | l r s IHl IHr] using Rope_induction; [reflexivity|].
  opt_cases l r; try discriminate.
  intros H. apply andb_prop in H as [_ Hy]. auto.
Qed.

(** ** Concatenation *)

Lemma listText_app (a b : list (option MapRepresentation)) :
  listText (a ++ b) = listText a ++ listText b.
Proof. apply flat_map_app. Qed.

Lemma concatenateTwoMaps_ok (a b : MapRepresentation) :
  mapSizes a -> mapSizes b ->
  exists m, concatenateTwoMaps (Some a) (Some b) = Ok m
            /\ mapText m = mapText a ++ mapText b
            /\ mapSizes m /\ (mapFull a -> mapFull b -> mapFull m).
Proof.
  intros Ha Hb. unfold concatenateTwoMaps.
  rewrite (getSize_mapSizes a Ha), (getSize_mapSizes b Hb). cbn [bind].
  eexists. split; [reflexivity|]. cbn. rewrite len_app. auto.
Qed.

Lemma concatenateLoop_ok (rest : list (option MapRepresentation)) :
  Forall detachedOk rest ->
  forall acc, mapSizes acc -> mapFull acc ->
  exists m, concatenateLoop (Some acc) rest = Ok (Some m)
            /\ mapText m = mapText acc ++ listText rest
            /\ mapSizes m /\ mapFull m.
Proof.
  induction 1 as [| o rest (d & -> & Hs & Hf) _ IH]; intros acc Has Haf.
  - exists acc. cbn. rewrite app_nil_r. auto.
  - destruct (concatenateTwoMaps_ok acc d Has Hs) as (m & Hm & Ht & Hms & Hmf).
    cbn [concatenateLoop]. rewrite Hm. cbn [bind].
    destruct (IH m Hms (Hmf Haf Hf)) as (m' & Hm' & Ht' & Hs' & Hf').
    exists m'. rewrite Hm', Ht', Ht. cbn. rewrite <- app_assoc. auto.
Qed.

Lemma concatenateMapList_ok (l : list (option MapRepresentation)) :
  Forall detachedOk l -> l <> [] ->
  exists m, concatenateMapList l = Ok (Some m)
            /\ mapText m = listText l /\ mapSizes m /\ mapFull m.
Proof.
  intros Hl Hne. destruct l as [| o rest]; [congruence|].
  inversion Hl as [| ? ? (d & -> & Hs & Hf) Hrest]; subst.
  cbn [concatenateMapList]. apply (concatenateLoop_ok rest Hrest d Hs Hf).
Qed.

(** Defined maps always concatenate, whatever their shape. *)
Lemma concatenateTwoMaps_defined (a b : MapRepresentation) :
  exists m, concatenateTwoMaps (Some a) (Some b) = Ok m
            /\ mapText m = mapText a ++ mapText b.
Proof.
  unfold concatenateTwoMaps.
  destruct (getSize_defined a) as (na & ->), (getSize_defined b) as (nb & ->).
  cbn. eauto.
Qed.

Lemma concatenateMapList_three (a b c : MapRepresentation) :
  exists m, concatenateMapList [Some a; Some b; Some c] = Ok (Some m)
            /\ mapText m = mapText a ++ mapText b ++ mapText c.
Proof.
  cbn [concatenateMapList concatenateLoop].
  destruct (concatenateTwoMaps_defined a b) as (ab & -> & Hab). cbn [bind].
  destruct (concatenateTwoMaps_defined ab c) as (abc & -> & Habc). cbn [bind].
  exists abc. rewrite Habc, Hab, <- app_assoc. auto.
Qed.

Lemma concatenateMapList_two (a b : MapRepresentation) :
  exists m, concatenateMapList [Some a; Some b] = Ok (Some m)
            /\ mapText m = mapText a ++ mapText b.
Proof.
  cbn [concatenateMapList concatenateLoop].
  destruct (concatenateTwoMaps_defined a b) as (ab & -> & Hab). cbn [bind].
  eauto.
Qed.

(** ** Split on a map whose branches all have both children *)

Lemma leafCaseResult_text (rv : revision) (t : text) :
  mapText (leafCaseResult rv t) = t.
Proof. destruct rv; cbn; rewrite ?app_nil_r; reflexivity. Qed.

Lemma splitHelper_full (rv : revision) (m : MapRepresentation) :
  mapSizes m -> mapFull m ->
  forall (position : Z) (list : list (option MapRepresentation)),
  exists m' detached,
    splitHelper rv m position list = Ok (m', list ++ detached)
    /\ mapText m' = firstn (Z.to_nat (position + 1)) (mapText m)
    /\ listText detached = skipn (Z.to_nat (position + 1)) (mapText m)
    /\ Forall detachedOk detached /\ detached <> [].
Proof.
  induction m as [t | l r s IHl IHr] using Map_induction;
    intros Hs Hf position list.
  - cbn [splitHelper].
    exists (leafCaseResult rv (substring t 0 (Some (position + 1)))).
    exists [Some (MapLeaf (substring t (position + 1) None))].
    rewrite leafCaseResult_text, substring_prefix.
    cbn [listText flat_map optText mapText]. rewrite app_nil_r, substring_suffix.
    repeat split; try discriminate.
    constructor; [|constructor]. eexists. cbn. auto.
  - destruct l as [x|]; [|contradiction]. destruct r as [y|]; [|contradiction].
    cbn in Hs, Hf, IHl, IHr. destruct Hs as (Hsz & Hsx & Hsy).
    destruct Hf as (Hfx & Hfy).
    cbn [splitHelper mapText]. rewrite (getSize_mapSizes x Hsx). cbn [bind].
    set (n := Z.to_nat (position + 1)).
    assert (Hlen : len (mapText x) = Z.of_nat (List.length (mapText x)))
      by reflexivity.
    destruct (Z.eqb_spec (len (mapText x)) (position + 1)) as [He | Hne].
    + rewrite (getSize_mapSizes y Hsy). cbn [bind].
      exists (MapBranch (Some x) None (s - len (mapText y))), [Some y].
      assert (Hn : n = List.length (mapText x)) by (unfold n, len in *; lia).
      cbn [mapText listText flat_map optText]. rewrite !app_nil_r.
      rewrite firstn_app, skipn_app, Hn, firstn_all, skipn_all, Nat.sub_diag.
      cbn [firstn skipn]. rewrite app_nil_r.
      repeat split; try discriminate.
      constructor; [|constructor]. exists y. auto.
    + destruct (Z.gtb_spec (len (mapText x)) (position + 1)) as [Hgt | Hle].
      * destruct (IHl Hsx Hfx position list)
          as (x' & dx & Hx' & Htx & Hdx & Hok & _).
        rewrite Hx'. cbn [bind].
        destruct (getSize_defined x') as (nx & ->). cbn [bind].
        exists (MapBranch (Some x') None nx), (dx ++ [Some y]).
        rewrite app_assoc. cbn [mapText]. rewrite app_nil_r, listText_app.
        cbn [listText flat_map optText]. rewrite app_nil_r.
        rewrite firstn_app, skipn_app, Htx, Hdx.
        replace (n - List.length (mapText x))%nat with 0%nat by (unfold n, len in *; lia).
        cbn [firstn skipn]. rewrite app_nil_r.
        repeat split.
        -- apply Forall_app. split; [exact Hok|].
           constructor; [|constructor]. exists y. auto.
        -- destruct dx; discriminate.
      * destruct (IHr Hsy Hfy (position - len (mapText x)) list)
          as (y' & dy & Hy' & Hty & Hdy & Hok & Hne').
        rewrite Hy'. cbn [bind].
        destruct (getSize_defined y') as (ny & ->). cbn [bind].
        exists (MapBranch (Some x) (Some y') ny), dy.
        cbn [mapText]. rewrite firstn_app, skipn_app, Hty, Hdy.
        replace (Z.to_nat (position - len (mapText x) + 1))
          with (n - List.length (mapText x))%nat by (unfold n, len in *; lia).
        rewrite (@firstn_all2 _ n (mapText x)), (@skipn_all2 _ n (mapText x))
          by (unfold n, len in *; lia).
        repeat split; assumption.
Qed.

(** [splitAt] on a rope built by the constructors, all of whose branches
    have both children: it returns, for every integer position, the first
    [position + 1] characters and the rest (both counts clamped by
    [firstn] and [skipn]). *)
Lemma splitAt_full (rv : revision) (rope : Rope) (position : Z) :
  sizeInvariant rope = true -> bothChildren rope = true ->
  exists a b,
    splitAt rv rope position = Ok (a, b)
    /\ Rope.toString a = firstn (Z.to_nat (position + 1)) (Rope.toString rope)
    /\ Rope.toString b = skipn (Z.to_nat (position + 1)) (Rope.toString rope)
    /\ sizeInvariant a = true
    /\ sizeInvariant b = true /\ bothChildren b = true.
Proof.
  intros Hs Hf. unfold splitAt.
  destruct (splitHelper_full rv (Rope.toMap rope) (mapSizes_toMap _ Hs)
              (mapFull_toMap _ Hf) position [])
    as (m' & dl & Hsplit & Hleft & Hright & Hok & Hne).
  rewrite Hsplit. cbn [bind app].
  destruct (concatenateMapList_ok dl Hok Hne) as (mr & Hcat & Htext & Hrs & Hrf).
  rewrite Hcat. cbn [bind createRopeFromMapU].
  exists (createRopeFromMap m'), (createRopeFromMap mr).
  rewrite !toString_createRopeFromMap, !sizeInvariant_createRopeFromMap.
  rewrite (bothChildren_createRopeFromMap mr Hrf).
  rewrite Hleft, Htext, Hright, mapText_toMap. auto 10.
Qed.

Lemma insert_at_0 (rv : revision) (rope : Rope) (t : text) :
  exists r', insert rv rope t 0 = Ok r'
             /\ Rope.toString r' = t ++ Rope.toString rope.
Proof.
  unfold insert. cbn [Z.eqb].
  destruct (concatenateTwoMaps_defined (Rope.toMap (RopeLeaf t)) (Rope.toMap rope))
    as (m & -> & Hm).
  cbn [bind]. eexists. split; [reflexivity|].
  now rewrite toString_createRopeFromMap, Hm, !mapText_toMap.
Qed.

Lemma insert_full (rv : revision) (rope : Rope) (t : text) (location : Z) :
  sizeInvariant rope = true -> bothChildren rope = true ->
  exists r', insert rv rope t location = Ok r'
             /\ Rope.toString r' = spliceAt (Rope.toString rope) t (Z.to_nat location).
Proof.
  intros Hs Hf. destruct (Z.eqb_spec location 0) as [-> | Hne].
  - apply insert_at_0.
  - unfold insert. rewrite (proj2 (Z.eqb_neq location 0) Hne).
    destruct (splitAt_full rv rope (location - 1) Hs Hf)
      as (a & b & -> & Ha & Hb & _).
    cbn [bind].
    destruct (concatenateMapList_three (Rope.toMap a) (Rope.toMap (RopeLeaf t))
                (Rope.toMap b)) as (m & -> & Hm).
    cbn [bind createRopeFromMapU]. eexists. split; [reflexivity|].
    rewrite toString_createRopeFromMap, Hm, !mapText_toMap, Ha, Hb.
    replace (location - 1 + 1) with location by lia. reflexivity.
Qed.

(** [deleteRange] on such a rope: the characters before [start], then what
    the second split leaves of the rest. *)
Lemma deleteRange_full (rope : Rope) (start end_ : Z) :
  sizeInvariant rope = true -> bothChildren rope = true ->
  let s := Rope.toString rope in
  let kept := firstn (Z.to_nat start) s in
  exists r', deleteRange rope start end_ = Ok r'
             /\ Rope.toString r'
                = kept ++ skipn (Z.to_nat (end_ - len kept)) (skipn (Z.to_nat start) s).
Proof.
  intros Hs Hf s kept. unfold deleteRange.
  destruct (splitAt_full Part000 rope (start - 1) Hs Hf)
    as (a & b & -> & Ha & Hb & Hsa & Hsb & Hfb).
  replace (start - 1 + 1) with start in Ha, Hb by lia.
  cbn [bind].
  rewrite (getSize_mapSizes _ (mapSizes_toMap a Hsa)), mapText_toMap.
  cbn [bind].
  destruct (splitAt_full Part000 b (end_ - len (Rope.toString a) - 1) Hsb Hfb)
    as (c & d & -> & Hc & Hd & _).
  cbn [bind].
  destruct (concatenateMapList_two (Rope.toMap a) (Rope.toMap d)) as (m & -> & Hm).
  cbn [bind createRopeFromMapU]. eexists. split; [reflexivity|].
  rewrite toString_createRopeFromMap, Hm, !mapText_toMap, Hd, Hb, Ha.
  fold s. fold kept.
  replace (end_ - len kept - 1 + 1) with (end_ - len kept) by lia.
  reflexivity.
Qed.

(** ** Split past the end: only the right spine is visited *)

Lemma splitHelper_spine (rv : revision) (m : MapRepresentation) :
  mapSizes m -> mapSpine m ->
  forall (position : Z) (list : list (option MapRepresentation)),
  len (mapText m) < position + 1 ->
  exists m',
    splitHelper rv m position list = Ok (m', list ++ [Some (MapLeaf [])])
    /\ mapText m' = mapText m.
Proof.
  induction m as [t | l r s IHl IHr] using Map_induction;
    intros Hs Hf position list Hpos.
  - cbn [splitHelper]. eexists. split.
    + rewrite substring_suffix, skipn_all2
        by (cbn [mapText] in Hpos; unfold len in Hpos; lia).
      reflexivity.
    + rewrite leafCaseResult_text, substring_prefix.
      apply firstn_all2. cbn [mapText] in *. unfold len in Hpos. lia.
  - destruct l as [x|]; [|contradiction]. destruct r as [y|]; [|contradiction].
    cbn in Hs, Hf, IHr. destruct Hs as (Hsz & Hsx & Hsy).
    cbn [mapText] in Hpos. rewrite len_app in Hpos.
    pose proof (len_nonneg (mapText x)) as Hx0.
    pose proof (len_nonneg (mapText y)) as Hy0.
    cbn [splitHelper]. rewrite (getSize_mapSizes x Hsx). cbn [bind].
    rewrite (proj2 (Z.eqb_neq _ _)) by lia.
    rewrite Z.gtb_ltb, (proj2 (Z.ltb_ge _ _)) by lia.
    destruct (IHr Hsy Hf (position - len (mapText x)) list) as (y' & Hy' & Hty);
      [lia|].
    rewrite Hy'. cbn [bind].
    destruct (getSize_defined y') as (ny & ->). cbn [bind].
    eexists. split; [reflexivity|]. cbn [mapText]. now rewrite Hty.
Qed.

Lemma splitAt_spine (rv : revision) (rope : Rope) (position : Z) :
  sizeInvariant rope = true -> rightSpine rope = true ->
  Rope.size rope <= position ->
  exists a,
    splitAt rv rope position = Ok (a, RopeLeaf [])
    /\ Rope.toString a = Rope.toString rope.
Proof.
  intros Hs Hf Hpos. unfold splitAt.
  destruct (splitHelper_spine rv (Rope.toMap rope) (mapSizes_toMap _ Hs)
              (mapSpine_toMap _ Hf) position []) as (m' & Hsplit & Htext).
  { rewrite mapText_toMap, <- size_toString by exact Hs. lia. }
  rewrite Hsplit. cbn. eexists. split; [reflexivity|].
  now rewrite toString_createRopeFromMap, Htext, mapText_toMap.
Qed.

(** ** The two revisions of [splitHelper] side by side *)

Lemma splitHelper_revisions (m : MapRepresentation) :
  forall (position : Z) (list : list (option MapRepresentation)),
    sameHelper (splitHelper LibRope m position list)
               (splitHelper Part000 m position list).
Proof.
  induction m as [t | l r s IHl IHr] using Map_induction; intros position list.
  - cbn. rewrite app_nil_r. auto.
  - cbn [splitHelper].
    destruct (getSize l) as [leftSize | e]; cbn [bind]; [|reflexivity].
    destruct (leftSize =? position + 1).
    + destruct (getSize r); cbn; auto.
    + destruct (leftSize >? position + 1).
      * destruct l as [x|]; [|reflexivity]. cbn in IHl.
        specialize (IHl position list). unfold sameHelper in IHl.
        destruct (splitHelper LibRope x position list) as [[m1 l1] | e1],
                 (splitHelper Part000 x position list) as [[m2 l2] | e2];
          try contradiction; cbn [bind]; [|exact IHl].
        destruct IHl as [Ht ->].
        destruct (getSize_defined m1) as (n1 & ->), (getSize_defined m2) as (n2 & ->).
        cbn. rewrite Ht. auto.
      * destruct r as [y|]; [|reflexivity]. cbn in IHr.
        specialize (IHr (position - leftSize) list). unfold sameHelper in IHr.
        destruct (splitHelper LibRope y (position - leftSize) list) as [[m1 l1] | e1],
                 (splitHelper Part000 y (position - leftSize) list) as [[m2 l2] | e2];
          try contradiction; cbn [bind]; [|exact IHr].
        destruct IHr as [Ht ->].
        destruct (getSize_defined m1) as (n1 & ->), (getSize_defined m2) as (n2 & ->).
        cbn. rewrite Ht. auto.
Qed.

(** ** What the operations return is always built by [createRopeFromMap] *)

Lemma bind_Ok (A B : Type) (m : result A) (k : A -> result B) (b : B) :
  bind m k = Ok b -> exists a, m = Ok a /\ k a = Ok b.
Proof. destruct m as [a | e]; cbn; [eauto | discriminate]. Qed.

Lemma createRopeFromMapU_Ok (o : option MapRepresentation) (r : Rope) :
  createRopeFromMapU o = Ok r -> exists m, r = createRopeFromMap m.
Proof. destruct o as [m|]; cbn; [|discriminate]. intros [= <-]. eauto. Qed.

Lemma splitAt_created (rv : revision) (rope : Rope) (position : Z) (a b : Rope) :
  splitAt rv rope position = Ok (a, b) ->
  (exists m, a = createRopeFromMap m) /\ (exists m, b = createRopeFromMap m).
Proof.
  unfold splitAt. intros H.
  apply bind_Ok in H as ([leftMap list] & _ & H).
  apply bind_Ok in H as (rightMap & _ & H).
  apply bind_Ok in H as (right_ & Hr & [= <- <-]).
  split; [eauto | exact (createRopeFromMapU_Ok _ _ Hr)].
Qed.

Lemma insert_created (rv : revision) (rope : Rope) (t : text) (location : Z)
    (r' : Rope) :
  insert rv rope t location = Ok r' -> exists m, r' = createRopeFromMap m.
Proof.
  unfold insert. destruct (location =? 0); intros H.
  - apply bind_Ok in H as (m & _ & [= <-]). eauto.
  - apply bind_Ok in H as ([a b] & _ & H).
    apply bind_Ok in H as (m & _ & H).
    exact (createRopeFromMapU_Ok _ _ H).
Qed.

Lemma deleteRange_created (rope : Rope) (start end_ : Z) (r' : Rope) :
  deleteRange rope start end_ = Ok r' -> exists m, r' = createRopeFromMap m.
Proof.
  unfold deleteRange. intros H.
  apply bind_Ok in H as ([a b] & _ & H).
  apply bind_Ok in H as (n & _ & H).
  apply bind_Ok in H as ([c d] & _ & H).
  apply bind_Ok in H as (m & _ & H).
  exact (createRopeFromMapU_Ok _ _ H).
Qed.

Lemma sizeInvariant_new (l r : option Rope) :
  optb sizeInvariant l = true -> optb sizeInvariant r = true ->
  sizeInvariant (Rope.new l r) = true.
Proof.
  intros Hl Hr. unfold Rope.new. cbn [sizeInvariant]. rewrite Z.eqb_refl.
  destruct l, r; cbn in *; rewrite ?Hl, ?Hr; reflexivity.
Qed.

(** ** Balance *)

Lemma isBalanced_branch (l r : option Rope) (s : Z) :
  Rope.isBalanced (RopeBranch l r s) = true <->
  optb Rope.isBalanced l = true /\ optb Rope.isBalanced r = true
  /\ Z.abs (Rope.leftHeight l - Rope.rightHeight r) < 2.
Proof.
  cbn [Rope.isBalanced]. rewrite !andb_true_iff, Z.ltb_lt.
  destruct l, r; cbn [optb]; tauto.
Qed.

Lemma isBalanced_Balanced (n : Rope) : Rope.isBalanced n = true <-> Balanced n.
Proof.
  induction n as [t | l r s IHl IHr] using Rope_induction.
  - split; [constructor | reflexivity].
  - rewrite isBalanced_branch. split.
    + intros (Hl & Hr & Hh). constructor; [| |exact Hh].
      * intros x ->. now apply IHl.
      * intros x ->. now apply IHr.
    + intros H. inversion H as [| ? ? ? Hl Hr Hh]; subst.
      repeat split; [| |exact Hh].
      * destruct l as [x|]; [|reflexivity]. apply IHl, Hl. reflexivity.
      * destruct r as [y|]; [|reflexivity]. apply IHr, Hr. reflexivity.
Qed.

(** * The properties of the specification *)

(** C1 (round-trip split).  The property asks that a split at a valid
    position of any rope returns two ropes whose texts concatenate to the
    text of the rope.  [splitAt_full] gives this for ropes all of whose
    branches have both children, but a split leaves branches without a right
    child in its left result, and [splitHelper] dereferences the missing
    child when it meets such a branch.  Here the rope is the one that
    [insert(new RopeLeaf("abcd"), "X", 2)] returns in rope.ts, and the one
    that [insert(new RopeBranch(new RopeLeaf("abc"), new RopeLeaf("d")),
    "X", 2)] returns in part_000; position 0 is valid for both, and the split
    raises [TypeError] instead of returning a pair. *)
Theorem splitAt_raises_on_insert_result :
  insert LibRope (RopeLeaf (str "abcd")) (str "X") 2 = Ok abXcd_lib
  /\ Rope.toString abXcd_lib = str "abXcd"
  /\ 0 <= 0 < Rope.size abXcd_lib
  /\ splitAt LibRope abXcd_lib 0 = Err TypeError
  /\ insert Part000 abc_d (str "X") 2 = Ok abXcd_rev
  /\ 0 <= 0 < Rope.size abXcd_rev
  /\ splitAt Part000 abXcd_rev 0 = Err TypeError.
Proof.
  repeat split; try reflexivity; cbn; lia.
Qed.

(** C2 (insert correctness).  The property asks that [insert] at a
    location between 0 and the size of the rope splices the text in.
    [insert_full] gives this for ropes all of whose branches have both
    children, and [insert_at_0] for location 0 on every rope.  On the rope
    that a first insertion returned, a second insertion at the valid
    location 1 raises [TypeError] where the property requires the text
    "aYbXcd". *)
Theorem insert_twice_raises :
  (r <- insert LibRope (RopeLeaf (str "abcd")) (str "X") 2 ;;
   insert LibRope r (str "Y") 1) = Err TypeError
  /\ (r <- insert Part000 abc_d (str "X") 2 ;;
      insert Part000 r (str "Y") 1) = Err TypeError
  /\ 0 <= 1 <= Rope.size abXcd_lib
  /\ spliceAt (Rope.toString abXcd_lib) (str "Y") 1 = str "aYbXcd".
Proof.
  repeat split; try reflexivity; cbn; lia.
Qed.

(** C3 (delete correctness), as the specification states it, fails on its
    own third scenario: [deleteRange(Leaf("Hello Big World"), 6, 9)] keeps
    the character at index 9 and flattens to "Hello  World", with two
    spaces. *)
Lemma deleteRange_not_inclusive :
  exists r',
    deleteRange (RopeLeaf (str "Hello Big World")) 6 9 = Ok r'
    /\ Rope.toString r' = str "Hello  World"
    /\ removeInclusive (str "Hello Big World") 6 9 = str "Hello World"
    /\ Rope.toString r' <> removeInclusive (str "Hello Big World") 6 9.
Proof.
  eexists. split; [reflexivity|].
  split; [reflexivity|]. split; [reflexivity|].
  vm_compute. discriminate.
Qed.

(** C3, amended.  For every rope built by the constructors all of whose
    branches have both children, and all indices with
    [0 <= start <= end <= size(r)], [deleteRange(r, start, end)] returns a
    rope that flattens to the text of [r] without the characters at the
    indices from [start] up to, and not including, [end]: the first [start]
    characters followed by the characters from index [end] on. *)
Theorem deleteRange_half_open (r : Rope) (start end_ : Z) :
  sizeInvariant r = true -> bothChildren r = true ->
  0 <= start <= end_ -> end_ <= Rope.size r ->
  exists r',
    deleteRange r start end_ = Ok r'
    /\ Rope.toString r'
       = removeHalfOpen (Rope.toString r) (Z.to_nat start) (Z.to_nat end_).
Proof.
  intros Hs Hf Hse Hend.
  destruct (deleteRange_full r start end_ Hs Hf) as (r' & Hr & Ht).
  exists r'. split; [exact Hr|]. rewrite Ht. unfold removeHalfOpen.
  rewrite (size_toString r Hs) in Hend. unfold len in *.
  rewrite length_firstn, skipn_skipn. do 2 f_equal. lia.
Qed.

Lemma deleteRange_half_open_witness :
  exists r',
    deleteRange helloWorld 2 7 = Ok r'
    /\ Rope.toString r' = removeHalfOpen (Rope.toString helloWorld) 2 7.
Proof.
  apply (deleteRange_half_open helloWorld 2 7);
    [reflexivity | reflexivity | lia | cbn; lia].
Defined.

(** C4 (sizes recorded while splitting).  The property asks that every
    branch rebuilt on the way back up records the sum of the sizes of its
    children.  In the case where the boundary lies in the right subtree
    [splitHelper] assigns [map.size = getSize(map.right)], leaving the kept
    left child out.  On the map of
    [new RopeBranch(new RopeLeaf("x"), new RopeLeaf("ab"))] split at
    position 1, the returned root records size 1 while its children have
    sizes 1 and 1.  (The ropes that [splitAt] returns are rebuilt by
    [createRopeFromMap], which computes the sizes afresh.) *)
Theorem splitHelper_right_case_stale_size :
  recordedSizesTrue (Rope.toMap x_ab) = true
  /\ splitHelper LibRope (Rope.toMap x_ab) 1 []
     = Ok (MapBranch (Some (MapLeaf (str "x")))
                     (Some (MapBranch (Some (MapLeaf (str "a"))) None 1)) 1,
           [Some (MapLeaf (str "b"))])
  /\ splitHelper Part000 (Rope.toMap x_ab) 1 []
     = Ok (MapBranch (Some (MapLeaf (str "x"))) (Some (MapLeaf (str "a"))) 1,
           [Some (MapLeaf (str "b"))])
  /\ forall rv : revision,
       exists m l,
         splitHelper rv (Rope.toMap x_ab) 1 [] = Ok (m, l)
         /\ getSize (Some m) = Ok 1 /\ childrenSize m = 2
         /\ recordedSizesTrue m = false.
Proof.
  repeat split. intros [|]; eexists; eexists; repeat split.
Qed.

(** C5 (size invariant).  Every rope handed out by an operation of the
    public interface (leaf and branch construction, [createRopeFromMap],
    either side of a split, [insert], [deleteRange]) satisfies: each of its
    branches has a size equal to the size of its left child plus the size of
    its right child, an absent child counting for 0. *)
Theorem produced_sizeInvariant (r : Rope) :
  produced r -> sizeInvariant r = true.
Proof.
  induction 1 as [t | l r Hl IHl Hr IHr | m | rv r p a b H | rv r p a b H
                  | rv r t location r' H | r start end_ r' H].
  - reflexivity.
  - apply sizeInvariant_new.
    + destruct l as [x|]; [apply IHl|]; reflexivity.
    + destruct r as [y|]; [apply IHr|]; reflexivity.
  - apply sizeInvariant_createRopeFromMap.
  - apply splitAt_created in H as [(m & ->) _].
    apply sizeInvariant_createRopeFromMap.
  - apply splitAt_created in H as [_ (m & ->)].
    apply sizeInvariant_createRopeFromMap.
  - apply insert_created in H as (m & ->).
    apply sizeInvariant_createRopeFromMap.
  - apply deleteRange_created in H as (m & ->).
    apply sizeInvariant_createRopeFromMap.
Qed.

Lemma produced_sizeInvariant_witness : sizeInvariant abXcd_lib = true.
Proof.
  apply produced_sizeInvariant.
  apply (produced_insert LibRope (RopeLeaf (str "abcd")) (str "X") 2).
  reflexivity.
Defined.

(** C6 (the two sides of a split).  The property asks that a split at a
    valid position returns the characters up to and including the position
    on the left and the rest on the right, the right being empty at the last
    position.  [splitAt_full] gives this for ropes all of whose branches
    have both children.  On [new RopeBranch(new RopeLeaf("a"), null)], which
    is also what [createRopeFromMap] builds from a branch map without
    [right], position 0 is the last valid position and the split raises
    [TypeError] in both revisions where the property requires the sides "a"
    and "".  Likewise on the rope "abXcd" that [insert] of rope.ts returned,
    a split at position 0 raises where the property requires a left side of
    size 1. *)
Theorem splitAt_raises_without_right_child :
  sizeInvariant branchWithoutRight = true
  /\ Rope.toString branchWithoutRight = str "a"
  /\ Rope.size branchWithoutRight = 1
  /\ createRopeFromMap (MapBranch (Some (MapLeaf (str "a"))) None 1)
     = branchWithoutRight
  /\ (forall rv : revision, splitAt rv branchWithoutRight 0 = Err TypeError)
  /\ sizeInvariant abXcd_lib = true
  /\ Rope.size abXcd_lib = 5
  /\ splitAt LibRope abXcd_lib 0 = Err TypeError.
Proof.
  repeat split.
Qed.

(** C7 (InvalidIndex), as the specification states it, fails: the code
    checks no index.  On the leaf "ab", [insert] at location 5 and at
    location -3, [deleteRange] with [start = 1 > end = 0] and with
    [end = 9], and a split at position 7 all return a rope. *)
Lemma out_of_range_not_signaled :
  (forall rv : revision,
      exists r', insert rv (RopeLeaf (str "ab")) (str "X") 5 = Ok r'
                 /\ Rope.toString r' = str "abX")
  /\ (forall rv : revision,
      exists r', insert rv (RopeLeaf (str "ab")) (str "X") (-3) = Ok r'
                 /\ Rope.toString r' = str "Xab")
  /\ (exists r', deleteRange (RopeLeaf (str "ab")) 1 0 = Ok r'
                 /\ Rope.toString r' = str "ab")
  /\ (exists r', deleteRange (RopeLeaf (str "ab")) 1 9 = Ok r'
                 /\ Rope.toString r' = str "a")
  /\ (forall rv : revision,
      exists a b, splitAt rv (RopeLeaf (str "ab")) 7 = Ok (a, b)
                  /\ Rope.toString a = str "ab" /\ Rope.toString b = str "").
Proof.
  repeat split; try (intros [|]); repeat eexists.
Qed.

(** C7, amended.  The code has no InvalidIndex error and validates no
    index.  For every rope built by the constructors all of whose branches
    have both children, [insert], [deleteRange] and the split return
    normally for every integer index, in range or not, and the index is
    clamped: a split at [position] returns the first [position + 1]
    characters (none when that count is negative, all when it exceeds the
    size) and the rest; [insert] splices the text at [location] clamped to
    [0 .. size]; [deleteRange] keeps the first [start] characters (clamped)
    and, of the rest, drops the first [end] minus the number of characters
    kept (clamped), so that nothing is removed when [end <= start].  The
    operations are functions of the rope they are given, which they do not
    modify. *)
Theorem out_of_range_is_clamped (rv : revision) (r : Rope) (t : text)
    (position location start end_ : Z) :
  sizeInvariant r = true -> bothChildren r = true ->
  let s := Rope.toString r in
  let kept := firstn (Z.to_nat start) s in
  (exists a b,
      splitAt rv r position = Ok (a, b)
      /\ Rope.toString a = firstn (Z.to_nat (position + 1)) s
      /\ Rope.toString b = skipn (Z.to_nat (position + 1)) s)
  /\ (exists r',
         insert rv r t location = Ok r'
         /\ Rope.toString r' = spliceAt s t (Z.to_nat location))
  /\ (exists r',
         deleteRange r start end_ = Ok r'
         /\ Rope.toString r'
            = kept ++ skipn (Z.to_nat (end_ - len kept)) (skipn (Z.to_nat start) s)).
Proof.
  intros Hs Hf s kept. split; [|split].
  - destruct (splitAt_full rv r position Hs Hf) as (a & b & H & Ha & Hb & _).
    exists a, b. auto.
  - exact (insert_full rv r t location Hs Hf).
  - exact (deleteRange_full r start end_ Hs Hf).
Qed.

Lemma out_of_range_is_clamped_witness :
  (exists a b,
      splitAt Part000 helloWorld 40 = Ok (a, b)
      /\ Rope.toString a = str "Hello World"
      /\ Rope.toString b = str "")
  /\ (exists r',
         insert Part000 helloWorld (str "!") 12 = Ok r'
         /\ Rope.toString r' = str "Hello World!")
  /\ (exists r',
         deleteRange helloWorld 9 3 = Ok r'
         /\ Rope.toString r' = str "Hello World").
Proof.
  apply (out_of_range_is_clamped Part000 helloWorld (str "!") 40 12 9 3);
    reflexivity.
Defined.

(** C8 (isBalanced).  For every node [n], [isBalanced(n)] returns true
    exactly when [n] is a leaf, or [n] is a branch whose children are both
    balanced (an absent child counting as balanced) and whose children's
    heights (0 for an absent child) differ by strictly less than 2.  The first
    part reads "balanced" as [isBalanced] of the child, the second as the
    recursive notion [Balanced] of the data model. *)
Theorem isBalanced_characterisation (n : Rope) :
  (Rope.isBalanced n = true <->
   (exists t, n = RopeLeaf t)
   \/ (exists l r s,
          n = RopeBranch l r s
          /\ optb Rope.isBalanced l = true /\ optb Rope.isBalanced r = true
          /\ Z.abs (Rope.leftHeight l - Rope.rightHeight r) < 2))
  /\ (Rope.isBalanced n = true <-> Balanced n).
Proof.
  split; [|apply isBalanced_Balanced].
  destruct n as [t | l r s].
  - split; [eauto | reflexivity].
  - rewrite isBalanced_branch. split.
    + intros H. right. exists l, r, s. auto.
    + intros [(t & [=]) | (l' & r' & s' & [= -> -> ->] & H)]. exact H.
Qed.

(** C9 (the two revisions of the split).  For every rope and every
    position, [splitAt] of rope.ts and [splitAt] of part_000 either raise the
    same exception or both return, and then the two left results have the
    same text and the same size, and so have the two right results. *)
Theorem splitAt_revisions_agree (r : Rope) (position : Z) :
  sameSplit (splitAt LibRope r position) (splitAt Part000 r position).
Proof.
  unfold splitAt.
  pose proof (splitHelper_revisions (Rope.toMap r) position []) as H.
  unfold sameHelper in H.
  destruct (splitHelper LibRope (Rope.toMap r) position []) as [[m1 l1] | e1],
           (splitHelper Part000 (Rope.toMap r) position []) as [[m2 l2] | e2];
    try contradiction; cbn [bind]; [|exact H].
  destruct H as [Ht ->].
  destruct (concatenateMapList l2) as [o | e]; cbn [bind]; [|reflexivity].
  destruct o as [m|]; cbn; [|reflexivity].
  rewrite !toString_createRopeFromMap, !size_createRopeFromMap, Ht. auto.
Qed.

(** With a location past the end only the right spine of the rope is
    visited: when every branch on it has both children, [insert] returns the
    text of the rope followed by the inserted text. *)
Lemma insert_past_end_appends (rv : revision) (r : Rope) (t : text)
    (location : Z) :
  sizeInvariant r = true -> rightSpine r = true ->
  Rope.size r < location ->
  exists r', insert rv r t location = Ok r'
             /\ Rope.toString r' = Rope.toString r ++ t.
Proof.
  intros Hs Hf Hloc. unfold insert.
  pose proof (len_nonneg (Rope.toString r)) as H0.
  rewrite <- (size_toString r Hs) in H0.
  rewrite (proj2 (Z.eqb_neq location 0)) by lia.
  destruct (splitAt_spine rv r (location - 1) Hs Hf) as (a & -> & Ha); [lia|].
  cbn [bind].
  destruct (concatenateMapList_three (Rope.toMap a) (Rope.toMap (RopeLeaf t))
              (Rope.toMap (RopeLeaf []))) as (m & -> & Hm).
  cbn [bind createRopeFromMapU]. eexists. split; [reflexivity|].
  rewrite toString_createRopeFromMap, Hm, !mapText_toMap, Ha.
  cbn. now rewrite app_nil_r.
Qed.

(** C10 (insert past the end).  The property says that for every rope and
    every location strictly greater than its size [insert] signals no error
    and returns the text of the rope followed by the inserted text.
    [insert_past_end_appends] gives this when every branch on the right
    spine has both children.  On [new RopeBranch(new RopeLeaf("a"), null)],
    also what [createRopeFromMap] builds from a branch map without [right],
    the size is 1 and [insert] at location 5 raises [TypeError] in both
    revisions: the split dereferences the missing right child. *)
Theorem insert_past_end_raises :
  sizeInvariant branchWithoutRight = true
  /\ Rope.size branchWithoutRight < 5
  /\ insert LibRope branchWithoutRight (str "X") 5 = Err TypeError
  /\ insert Part000 branchWithoutRight (str "X") 5 = Err TypeError.
Proof.
  repeat split.
Qed.

(** * Further properties of the code *)

(** ** Auxiliary facts *)

Lemma height_pos (r : Rope) : 1 <= Rope.height r.
Proof.
  induction r as [t | l r s IHl IHr] using Rope_induction; cbn [Rope.height];
    [lia|].
  destruct l, r; cbn in IHl, IHr; lia.
Qed.

Lemma created_toMap_shape (r : Rope) :
  Rope.toString (createRopeFromMap (Rope.toMap r)) = Rope.toString r
  /\ Rope.height (createRopeFromMap (Rope.toMap r)) = Rope.height r
  /\ Rope.isBalanced (createRopeFromMap (Rope.toMap r)) = Rope.isBalanced r.
Proof.
  induction r as [t | l r s IHl IHr] using Rope_induction; [repeat split|].
  destruct l as [x|], r as [y|]; cbn in IHl, IHr;
    try destruct IHl as (Hlt & Hlh & Hlb);
    try destruct IHr as (Hrt & Hrh & Hrb);
    cbn [Rope.toMap createRopeFromMap Rope.new Rope.toString Rope.height
         Rope.isBalanced Rope.leftHeight Rope.rightHeight];
    rewrite ?Hlt, ?Hlh, ?Hlb, ?Hrt, ?Hrh, ?Hrb; repeat split.
Qed.

Lemma created_toMap_id (r : Rope) :
  sizeInvariant r = true -> createRopeFromMap (Rope.toMap r) = r.
Proof.
  induction r as [t | l r s IHl IHr] using Rope_induction; [reflexivity|].
  intros H. apply sizeInvariant_branch in H as (Hs & Hl & Hr).
  cbn [Rope.toMap createRopeFromMap]. unfold Rope.new. subst s.
  destruct l as [x|], r as [y|]; cbn in IHl, IHr, Hl, Hr;
    rewrite ?(IHl Hl), ?(IHr Hr); reflexivity.
Qed.

Lemma recordedSizesTrue_branch (l r : option MapRepresentation) (s : Z) :
  recordedSizesTrue (MapBranch l r s) = true ->
  s = childrenSize (MapBranch l r s)
  /\ optb recordedSizesTrue l = true /\ optb recordedSizesTrue r = true.
Proof.
  cbn [recordedSizesTrue]. intros H.
  apply andb_prop in H as [H Hr]. apply andb_prop in H as [Hs Hl].
  apply Z.eqb_eq in Hs. now destruct l, r.
Qed.

Lemma toMap_created_id (m : MapRepresentation) :
  recordedSizesTrue m = true ->
  Rope.toMap (createRopeFromMap m) = m
  /\ getSize (Some m) = Ok (Rope.size (createRopeFromMap m)).
Proof.
  induction m as [t | l r s IHl IHr] using Map_induction; [split; reflexivity|].
  intros H. apply recordedSizesTrue_branch in H as (Hs & Hl & Hr).
  assert (Hsize : Rope.size (createRopeFromMap (MapBranch l r s)) = s).
  { cbn [childrenSize] in Hs. subst s.
    cbn [createRopeFromMap Rope.new Rope.size].
    destruct l as [x|], r as [y|]; cbn in IHl, IHr, Hl, Hr |- *;
      try destruct (IHl Hl) as (_ & ->); try destruct (IHr Hr) as (_ & ->);
      reflexivity. }
  split; [|cbn [getSize]; now rewrite Hsize].
  cbn [createRopeFromMap Rope.new Rope.size] in Hsize.
  cbn [createRopeFromMap Rope.new Rope.toMap]. rewrite Hsize.
  destruct l as [x|], r as [y|]; cbn in IHl, IHr, Hl, Hr;
    try destruct (IHl Hl) as (-> & _); try destruct (IHr Hr) as (-> & _);
    reflexivity.
Qed.

Lemma splitHelper_frame (rv : revision) (m : MapRepresentation) :
  forall (position : Z) (list : list (option MapRepresentation)),
    splitHelper rv m position list
    = match splitHelper rv m position [] with
      | Ok (m', detached) => Ok (m', list ++ detached)
      | Err e => Err e
      end.
Proof.
  induction m as [t | l r s IHl IHr] using Map_induction; intros position list.
  - reflexivity.
  - cbn [splitHelper].
    destruct (getSize l) as [leftSize | e]; cbn [bind]; [|reflexivity].
    destruct (leftSize =? position + 1).
    + destruct (getSize r); reflexivity.
    + destruct (leftSize >? position + 1).
      * destruct l as [x|]; [|reflexivity]. cbn in IHl.
        rewrite (IHl position list).
        destruct (splitHelper rv x position []) as [[x' d] | e]; cbn [bind];
          [|reflexivity].
        destruct (getSize_defined x') as (n & ->). cbn [bind app].
        now rewrite app_assoc.
      * destruct r as [y|]; [|reflexivity]. cbn in IHr.
        rewrite (IHr (position - leftSize) list).
        destruct (splitHelper rv y (position - leftSize) []) as [[y' d] | e];
          cbn [bind]; [|reflexivity].
        destruct (getSize_defined y') as (n & ->). reflexivity.
Qed.

Lemma substring_partition (t : text) (position : Z) :
  substring t 0 (Some (position + 1)) ++ substring t (position + 1) None = t.
Proof. rewrite substring_prefix, substring_suffix. apply firstn_skipn. Qed.

Lemma splitHelper_conserves (rv : revision) (m : MapRepresentation) :
  forall (position : Z) (m' : MapRepresentation)
         (detached : list (option MapRepresentation)),
    splitHelper rv m position [] = Ok (m', detached) ->
    mapText m' ++ listText detached = mapText m /\ detached <> [].
Proof.
  induction m as [t | l r s IHl IHr] using Map_induction;
    intros position m' detached.
  - cbn [splitHelper app]. intros [= <- <-].
    rewrite leafCaseResult_text. cbn [listText flat_map optText mapText].
    rewrite app_nil_r. split; [apply substring_partition | discriminate].
  - cbn [splitHelper].
    destruct (getSize l) as [leftSize | e]; cbn [bind]; [|discriminate].
    destruct (leftSize =? position + 1).
    + destruct (getSize r); cbn [bind app]; [|discriminate].
      intros [= <- <-]. cbn [mapText listText flat_map optText].
      rewrite !app_nil_r. split; [|discriminate]. now destruct l, r.
    + destruct (leftSize >? position + 1).
      * destruct l as [x|]; [|discriminate]. cbn in IHl.
        destruct (splitHelper rv x position []) as [[x' d] | e] eqn:Hx;
          cbn [bind]; [|discriminate].
        destruct (getSize_defined x') as (n & ->). cbn [bind].
        intros [= <- <-]. destruct (IHl position x' d Hx) as [Ht Hd].
        cbn [mapText]. rewrite listText_app, app_nil_r.
        cbn [listText flat_map]. rewrite app_nil_r, app_assoc, Ht.
        split; [now destruct r | destruct d; discriminate].
      * destruct r as [y|]; [|discriminate]. cbn in IHr.
        destruct (splitHelper rv y (position - leftSize) []) as [[y' d] | e]
          eqn:Hy; cbn [bind]; [|discriminate].
        destruct (getSize_defined y') as (n & ->). cbn [bind].
        intros [= <- <-]. destruct (IHr _ y' d Hy) as [Ht Hd].
        cbn [mapText]. rewrite <- app_assoc, Ht. split; [reflexivity | exact Hd].
Qed.

Lemma concatenateTwoMaps_text (a b : option MapRepresentation)
    (m : MapRepresentation) :
  concatenateTwoMaps a b = Ok m -> mapText m = optText a ++ optText b.
Proof.
  unfold concatenateTwoMaps.
  destruct (getSize a); cbn [bind]; [|discriminate].
  destruct (getSize b); cbn [bind]; [|discriminate].
  intros [= <-]. now destruct a, b.
Qed.

Lemma concatenateLoop_text (rest : list (option MapRepresentation)) :
  forall (acc o : option MapRepresentation),
    concatenateLoop acc rest = Ok o -> optText o = optText acc ++ listText rest.
Proof.
  induction rest as [| m rest IH]; intros acc o; cbn [concatenateLoop].
  - intros [= <-]. cbn. now rewrite app_nil_r.
  - destruct (concatenateTwoMaps acc m) as [t | e] eqn:Ht; cbn [bind];
      [|discriminate].
    intros H. rewrite (IH _ _ H). cbn [optText listText flat_map].
    rewrite (concatenateTwoMaps_text _ _ _ Ht). now rewrite app_assoc.
Qed.

Lemma concatenateMapList_text (l : list (option MapRepresentation))
    (o : option MapRepresentation) :
  concatenateMapList l = Ok o -> optText o = listText l.
Proof.
  destruct l as [| first rest]; cbn [concatenateMapList].
  - now intros [= <-].
  - apply concatenateLoop_text.
Qed.

Lemma concatenateTwoMaps_raises (a b : option MapRepresentation) :
  concatenateTwoMaps a b = Err TypeError <-> a = None \/ b = None.
Proof.
  unfold concatenateTwoMaps. destruct a as [x|], b as [y|];
    try (destruct (getSize_defined x) as (n & ->));
    try (destruct (getSize_defined y) as (n' & ->)); cbn;
    intuition (try discriminate; auto).
Qed.

Lemma concatenateLoop_raises (rest : list (option MapRepresentation)) :
  forall acc : option MapRepresentation,
    concatenateLoop acc rest = Err TypeError
    <-> rest <> [] /\ (acc = None \/ In None rest).
Proof.
  induction rest as [| m rest IH]; intros acc; cbn [concatenateLoop].
  - split; [discriminate | intros [H _]; congruence].
  - destruct (concatenateTwoMaps acc m) as [t | []] eqn:Ht; cbn [bind].
    + rewrite IH. assert (Hn : ~ (acc = None \/ m = None)).
      { intros H. apply concatenateTwoMaps_raises in H. congruence. }
      cbn [In]. split.
      * intros [_ [H | H]]; [discriminate|]. split; [discriminate | auto].
      * intros [_ [H | [H | H]]]; try (exfalso; apply Hn; auto; fail).
        split; [|auto]. destruct rest; [destruct H | discriminate].
    + apply concatenateTwoMaps_raises in Ht. cbn [In].
      split; [|reflexivity]. intros _. split; [discriminate|].
      destruct Ht as [H | H]; auto.
Qed.

Lemma splitAt_conserves (rv : revision) (rope : Rope) (position : Z)
    (a b : Rope) :
  splitAt rv rope position = Ok (a, b) ->
  Rope.toString a ++ Rope.toString b = Rope.toString rope.
Proof.
  unfold splitAt.
  destruct (splitHelper rv (Rope.toMap rope) position []) as [[m' d] | e]
    eqn:Hsplit; cbn [bind]; [|discriminate].
  destruct (concatenateMapList d) as [o | e] eqn:Hcat; cbn [bind];
    [|discriminate].
  destruct o as [mr|]; cbn [createRopeFromMapU bind]; [|discriminate].
  intros [= <- <-].
  apply splitHelper_conserves in Hsplit as [Ht _].
  apply concatenateMapList_text in Hcat. cbn [optText] in Hcat.
  now rewrite !toString_createRopeFromMap, Hcat, Ht, mapText_toMap.
Qed.

Lemma created_size (r : Rope) :
  (exists m, r = createRopeFromMap m) -> Rope.size r = len (Rope.toString r).
Proof.
  intros (m & ->).
  now rewrite size_createRopeFromMap, toString_createRopeFromMap.
Qed.

Lemma app_split_at (a b : text) :
  a = firstn (List.length a) (a ++ b) /\ b = skipn (List.length a) (a ++ b).
Proof.
  rewrite firstn_app, skipn_app, firstn_all, skipn_all, Nat.sub_diag.
  cbn. now rewrite app_nil_r.
Qed.

Lemma insert_text (rv : revision) (rope : Rope) (t : text) (location : Z)
    (r' : Rope) :
  insert rv rope t location = Ok r' ->
  exists a b, a ++ b = Rope.toString rope /\ Rope.toString r' = a ++ t ++ b.
Proof.
  unfold insert. destruct (location =? 0).
  - destruct (concatenateTwoMaps_defined (Rope.toMap (RopeLeaf t)) (Rope.toMap rope))
      as (m & -> & Hm).
    cbn [bind]. intros [= <-]. exists [], (Rope.toString rope).
    split; [reflexivity|].
    now rewrite toString_createRopeFromMap, Hm, !mapText_toMap.
  - destruct (splitAt rv rope (location - 1)) as [[a b] | e] eqn:Hsplit;
      cbn [bind]; [|discriminate].
    destruct (concatenateMapList_three (Rope.toMap a) (Rope.toMap (RopeLeaf t))
                (Rope.toMap b)) as (m & -> & Hm).
    cbn [bind createRopeFromMapU]. intros [= <-].
    exists (Rope.toString a), (Rope.toString b).
    split; [exact (splitAt_conserves _ _ _ _ _ Hsplit)|].
    now rewrite toString_createRopeFromMap, Hm, !mapText_toMap.
Qed.

Lemma deleteRange_text (rope : Rope) (start end_ : Z) (r' : Rope) :
  deleteRange rope start end_ = Ok r' ->
  exists a c d, a ++ c ++ d = Rope.toString rope /\ Rope.toString r' = a ++ d.
Proof.
  unfold deleteRange.
  destruct (splitAt Part000 rope (start - 1)) as [[a b] | e] eqn:H1;
    cbn [bind]; [|discriminate].
  destruct (getSize_defined (Rope.toMap a)) as (n & ->). cbn [bind].
  destruct (splitAt Part000 b (end_ - n - 1)) as [[c d] | e] eqn:H2;
    cbn [bind]; [|discriminate].
  destruct (concatenateMapList_two (Rope.toMap a) (Rope.toMap d)) as (m & -> & Hm).
  cbn [bind createRopeFromMapU]. intros [= <-].
  exists (Rope.toString a), (Rope.toString c), (Rope.toString d).
  apply splitAt_conserves in H1. apply splitAt_conserves in H2.
  split; [now rewrite H2|].
  now rewrite toString_createRopeFromMap, Hm, !mapText_toMap.
Qed.

(** A split of a branch without a child raises. *)
Lemma splitAt_missing_left (rv : revision) (r : option Rope) (s position : Z) :
  splitAt rv (RopeBranch None r s) position = Err TypeError.
Proof. reflexivity. Qed.

Lemma splitAt_missing_right (rv : revision) (l : option Rope) (s position : Z) :
  splitAt rv (RopeBranch l None s) position = Err TypeError.
Proof.
  unfold splitAt. cbn [Rope.toMap splitHelper].
  destruct l as [x|]; [|reflexivity].
  destruct (getSize_defined (Rope.toMap x)) as (n & ->). cbn [bind].
  destruct (n =? position + 1); [reflexivity|].
  destruct (n >? position + 1); [|reflexivity].
  destruct (splitHelper rv (Rope.toMap x) position []) as [[x' d] | []] eqn:Hx;
    cbn [bind]; [|reflexivity].
  destruct (getSize_defined x') as (n' & ->). cbn [bind].
  apply splitHelper_conserves in Hx as [_ Hd].
  destruct d as [| first rest]; [congruence|].
  cbn [app concatenateMapList].
  rewrite (proj2 (concatenateLoop_raises (rest ++ [None]) first));
    [reflexivity|].
  split; [destruct rest; discriminate|].
  right. apply in_or_app. right. now left.
Qed.




Lemma app_exact (a b : text) (n : nat) :
  List.length a = n -> firstn n (a ++ b) = a /\ skipn n (a ++ b) = b.
Proof. intros <-. destruct (app_split_at a b) as [H1 H2]. now rewrite <- H1, <- H2. Qed.

(** [insert] of part_000 into a leaf: every branch of the result has both
    children. *)
Lemma insert_leaf_part000 (s t : text) (location : Z) :
  exists r', insert Part000 (RopeLeaf s) t location = Ok r'
             /\ bothChildren r' = true /\ sizeInvariant r' = true
             /\ Rope.toString r' = spliceAt s t (Z.to_nat location).
Proof.
  destruct (insert_full Part000 (RopeLeaf s) t location eq_refl eq_refl)
    as (r' & Hr & Ht).
  exists r'. split; [exact Hr|]. split; [|split; [|exact Ht]].
  - revert Hr. unfold insert, splitAt.
    destruct (location =? 0); cbn; intros [= <-]; reflexivity.
  - apply insert_created in Hr as (m & ->).
    apply sizeInvariant_createRopeFromMap.
Qed.

Lemma deleteRange_leaf (s : text) (start end_ : Z) :
  0 <= start <= end_ -> end_ <= len s ->
  exists r', deleteRange (RopeLeaf s) start end_ = Ok r'
             /\ bothChildren r' = true /\ sizeInvariant r' = true
             /\ Rope.toString r'
                = firstn (Z.to_nat start) s ++ skipn (Z.to_nat end_) s.
Proof.
  intros Hse Hend.
  destruct (deleteRange_full (RopeLeaf s) start end_ eq_refl eq_refl)
    as (r' & Hr & Ht).
  exists r'. split; [exact Hr|]. split; [|split].
  - revert Hr. unfold deleteRange, splitAt. cbn. intros [= <-]. reflexivity.
  - apply deleteRange_created in Hr as (m & ->).
    apply sizeInvariant_createRopeFromMap.
  - rewrite Ht. cbn [Rope.toString]. unfold len in *.
    rewrite length_firstn, skipn_skipn. do 2 f_equal. lia.
Qed.

(** The left fold of [concatenateMapList] over leaves: each step adds one
    level on the left. *)
Lemma concatenateLoop_leaves (ts : list text) :
  forall (t : text) (acc : MapRepresentation),
  exists m,
    concatenateLoop (Some acc) (List.map (fun x => Some (MapLeaf x)) (t :: ts))
    = Ok (Some m)
    /\ Rope.height (createRopeFromMap m)
       = Rope.height (createRopeFromMap acc) + 1 + Z.of_nat (List.length ts)
    /\ Rope.isBalanced (createRopeFromMap m)
       = Rope.isBalanced (createRopeFromMap acc)
         && (Rope.height (createRopeFromMap acc) + Z.of_nat (List.length ts) <? 3)
    /\ mapText m = mapText acc ++ List.concat (t :: ts).
Proof.
  induction ts as [| t2 ts IH]; intros t acc;
    pose proof (height_pos (createRopeFromMap acc)) as Hpos;
    cbn [List.map concatenateLoop];
    destruct (getSize_defined acc) as (n & Hn);
    unfold concatenateTwoMaps at 1; rewrite Hn; cbn [getSize bind].
  - eexists. split; [reflexivity|].
    cbn [createRopeFromMap Rope.new Rope.height Rope.isBalanced Rope.leftHeight
         Rope.rightHeight mapText List.concat List.length].
    rewrite andb_true_r, app_nil_r.
    repeat split; [lia|]. f_equal.
    destruct (Z.ltb_spec (Rope.height (createRopeFromMap acc) + Z.of_nat 0) 3);
      [apply Z.ltb_lt | apply Z.ltb_ge]; lia.
  - destruct (IH t2 (MapBranch (Some acc) (Some (MapLeaf t)) (n + len t)))
      as (m & Hm & Hh & Hb & Ht).
    cbn [List.map] in Hm. exists m. split; [exact Hm|].
    rewrite Hh, Hb, Ht.
    cbn [createRopeFromMap Rope.new Rope.height Rope.isBalanced Rope.leftHeight
         Rope.rightHeight mapText List.concat List.length].
    rewrite andb_true_r, <- !app_assoc.
    repeat split; [lia|]. rewrite <- andb_assoc. f_equal.
    set (h := Rope.height (createRopeFromMap acc)) in *.
    destruct (Z.ltb_spec (h + Z.of_nat (S (List.length ts))) 3) as [H | H].
    + rewrite (proj2 (Z.ltb_lt _ _)), (proj2 (Z.ltb_lt _ _)) by lia. reflexivity.
    + destruct (Z.abs (h - 1) <? 2); [|reflexivity].
      apply Z.ltb_ge. lia.
Qed.

(** ** Ropes and their map representation *)

(** X1.  Converting a rope built by the constructors to its map and back
    gives the same rope. *)
Theorem rebuild_of_constructed_rope (r : Rope) :
  sizeInvariant r = true -> createRopeFromMap (Rope.toMap r) = r.
Proof. apply created_toMap_id. Qed.

Lemma rebuild_of_constructed_rope_witness :
  createRopeFromMap (Rope.toMap abXcd_rev) = abXcd_rev.
Proof. apply (rebuild_of_constructed_rope abXcd_rev). reflexivity. Defined.

(** X2.  A map whose branches record the sum of the sizes of their children
    is recovered from the rope that [createRopeFromMap] builds from it, and
    [getSize] of the map is the size of that rope. *)
Theorem toMap_of_rebuilt_map (m : MapRepresentation) :
  recordedSizesTrue m = true ->
  Rope.toMap (createRopeFromMap m) = m
  /\ getSize (Some m) = Ok (Rope.size (createRopeFromMap m)).
Proof. apply toMap_created_id. Qed.

Lemma toMap_of_rebuilt_map_witness :
  Rope.toMap (createRopeFromMap (Rope.toMap helloWorld)) = Rope.toMap helloWorld
  /\ getSize (Some (Rope.toMap helloWorld))
     = Ok (Rope.size (createRopeFromMap (Rope.toMap helloWorld))).
Proof. apply (toMap_of_rebuilt_map (Rope.toMap helloWorld)). reflexivity. Defined.

(** X3.  For every rope, whatever its cached sizes hold, the rope rebuilt
    from its map has the same text, the same height and the same balance,
    satisfies the size invariant, has the length of the text as size, and is
    a fixed point of rebuilding.  [createRopeFromMap] never reads the [size]
    property of a map. *)
Theorem rebuild_normalises (r : Rope) :
  let r' := createRopeFromMap (Rope.toMap r) in
  Rope.toString r' = Rope.toString r
  /\ Rope.height r' = Rope.height r
  /\ Rope.isBalanced r' = Rope.isBalanced r
  /\ sizeInvariant r' = true
  /\ Rope.size r' = len (Rope.toString r)
  /\ createRopeFromMap (Rope.toMap r') = r'.
Proof.
  intros r'. destruct (created_toMap_shape r) as (Ht & Hh & Hb).
  pose proof (sizeInvariant_createRopeFromMap (Rope.toMap r)) as Hs.
  repeat split; try assumption.
  - unfold r'. now rewrite size_createRopeFromMap, mapText_toMap.
  - apply created_toMap_id, Hs.
Qed.

(** X4.  The size of a rope built by the constructors is the length of its
    text, and [getSize] of its map returns that length. *)
Theorem size_is_text_length (r : Rope) :
  sizeInvariant r = true ->
  Rope.size r = len (Rope.toString r)
  /\ getSize (Some (Rope.toMap r)) = Ok (len (Rope.toString r)).
Proof.
  intros Hs. split; [exact (size_toString r Hs)|].
  now rewrite (getSize_mapSizes _ (mapSizes_toMap r Hs)), mapText_toMap.
Qed.

Lemma size_is_text_length_witness :
  Rope.size abXcd_lib = len (Rope.toString abXcd_lib)
  /\ getSize (Some (Rope.toMap abXcd_lib)) = Ok (len (Rope.toString abXcd_lib)).
Proof. apply (size_is_text_length abXcd_lib). reflexivity. Defined.

(** ** What a split, an insertion and a deletion preserve on every rope *)

(** X5.  Whenever a split returns, for any rope, any integer position and
    either revision, the texts of the two sides concatenate to the text of
    the rope, the two sizes add up to its length, and both sides satisfy the
    size invariant. *)
Theorem splitAt_lossless (rv : revision) (r : Rope) (position : Z) (a b : Rope) :
  splitAt rv r position = Ok (a, b) ->
  Rope.toString a ++ Rope.toString b = Rope.toString r
  /\ Rope.size a + Rope.size b = len (Rope.toString r)
  /\ sizeInvariant a = true /\ sizeInvariant b = true.
Proof.
  intros H. pose proof (splitAt_conserves _ _ _ _ _ H) as Ht.
  destruct (splitAt_created _ _ _ _ _ H) as [Ha Hb].
  rewrite (created_size a Ha), (created_size b Hb), <- len_app, Ht.
  destruct Ha as (ma & ->), Hb as (mb & ->).
  rewrite !sizeInvariant_createRopeFromMap. auto.
Qed.

Lemma splitAt_lossless_witness :
  Rope.toString (RopeBranch (Some (RopeLeaf (str "Hello"))) None 5)
    ++ Rope.toString (RopeBranch (Some (RopeLeaf (str " ")))
                                 (Some (RopeLeaf (str "World"))) 6)
  = Rope.toString helloWorld
  /\ Rope.size (RopeBranch (Some (RopeLeaf (str "Hello"))) None 5)
     + Rope.size (RopeBranch (Some (RopeLeaf (str " ")))
                             (Some (RopeLeaf (str "World"))) 6)
     = len (Rope.toString helloWorld)
  /\ sizeInvariant (RopeBranch (Some (RopeLeaf (str "Hello"))) None 5) = true
  /\ sizeInvariant (RopeBranch (Some (RopeLeaf (str " ")))
                               (Some (RopeLeaf (str "World"))) 6) = true.
Proof. apply (splitAt_lossless Part000 helloWorld 4). reflexivity. Defined.

(** X6.  Whenever [insert] returns, for any rope, text and integer
    location, the result is the text of the rope with the inserted text
    spliced in at some index: no character is lost, repeated or reordered,
    and the size of the result is the two lengths added. *)
Theorem insert_splices_somewhere (rv : revision) (r : Rope) (t : text)
    (location : Z) (r' : Rope) :
  insert rv r t location = Ok r' ->
  exists n : nat,
    (n <= List.length (Rope.toString r))%nat
    /\ Rope.toString r' = spliceAt (Rope.toString r) t n
    /\ Rope.size r' = len (Rope.toString r) + len t.
Proof.
  intros H. destruct (insert_text _ _ _ _ _ H) as (a & b & Hab & Ht).
  exists (List.length a). rewrite <- Hab.
  destruct (app_split_at a b) as [Ha Hb]. unfold spliceAt.
  rewrite <- Ha, <- Hb, (created_size r' (insert_created _ _ _ _ _ H)), Ht.
  rewrite length_app, !len_app. repeat split; lia.
Qed.

Lemma insert_splices_somewhere_witness :
  exists n : nat,
    (n <= List.length (Rope.toString (RopeLeaf (str "abcd"))))%nat
    /\ Rope.toString abXcd_lib
       = spliceAt (Rope.toString (RopeLeaf (str "abcd"))) (str "X") n
    /\ Rope.size abXcd_lib
       = len (Rope.toString (RopeLeaf (str "abcd"))) + len (str "X").
Proof.
  apply (insert_splices_somewhere LibRope (RopeLeaf (str "abcd")) (str "X") 2).
  reflexivity.
Defined.

(** X7.  Whenever [deleteRange] returns, for any rope and any integer
    indices, the result is the text of the rope without one contiguous block
    of characters, and its size is the length that remains. *)
Theorem deleteRange_removes_one_block (r : Rope) (start end_ : Z) (r' : Rope) :
  deleteRange r start end_ = Ok r' ->
  exists i j : nat,
    (i <= j <= List.length (Rope.toString r))%nat
    /\ Rope.toString r' = removeHalfOpen (Rope.toString r) i j
    /\ Rope.size r' = len (Rope.toString r) - Z.of_nat (j - i).
Proof.
  intros H. destruct (deleteRange_text _ _ _ _ H) as (a & c & d & Hacd & Ht).
  exists (List.length a), (List.length (a ++ c)).
  rewrite (created_size r' (deleteRange_created _ _ _ _ H)), Ht, <- Hacd.
  unfold removeHalfOpen.
  destruct (app_split_at a (c ++ d)) as [Ha _].
  destruct (app_split_at (a ++ c) d) as [_ Hd].
  rewrite <- app_assoc in Hd. rewrite <- Ha, <- Hd.
  unfold len. rewrite !length_app. repeat split; lia.
Qed.

Lemma deleteRange_removes_one_block_witness :
  exists i j : nat,
    (i <= j <= List.length (Rope.toString (RopeLeaf (str "Hello World"))))%nat
    /\ Rope.toString (RopeBranch (Some (RopeLeaf (str "He")))
                                 (Some (RopeLeaf (str "orld"))) 6)
       = removeHalfOpen (Rope.toString (RopeLeaf (str "Hello World"))) i j
    /\ Rope.size (RopeBranch (Some (RopeLeaf (str "He")))
                             (Some (RopeLeaf (str "orld"))) 6)
       = len (Rope.toString (RopeLeaf (str "Hello World"))) - Z.of_nat (j - i).
Proof.
  apply (deleteRange_removes_one_block (RopeLeaf (str "Hello World")) 2 7). reflexivity.
Defined.

(** ** The array of detached fragments and its concatenation *)

(** X8.  [splitHelper] only appends to the array it is given: run on any
    array, it raises exactly when the run on the empty array raises, and
    otherwise returns the same map and the array followed by the fragments of
    that run, of which there is at least one. *)
Theorem splitHelper_appends_to_list (rv : revision) (m : MapRepresentation)
    (position : Z) (list : list (option MapRepresentation)) :
  match splitHelper rv m position [] with
  | Ok (m', detached) =>
      detached <> [] /\ splitHelper rv m position list = Ok (m', list ++ detached)
  | Err e => splitHelper rv m position list = Err e
  end.
Proof.
  rewrite (splitHelper_frame rv m position list).
  destruct (splitHelper rv m position []) as [[m' d] | e] eqn:H; [|reflexivity].
  split; [|reflexivity]. exact (proj2 (splitHelper_conserves _ _ _ _ _ H)).
Qed.

(** X9.  [concatenateMapList] raises exactly when the array has at least two
    elements and one of them is [undefined]; an empty array and an array of
    one element, defined or not, are returned without an error. *)
Theorem concatenateMapList_raises_iff (l : list (option MapRepresentation)) :
  concatenateMapList l = Err TypeError
  <-> (2 <= List.length l)%nat /\ In None l.
Proof.
  destruct l as [| first rest]; cbn [concatenateMapList].
  - split; [discriminate | intros [H _]; cbn in H; lia].
  - rewrite concatenateLoop_raises. cbn [List.length In]. split.
    + intros [Hne H]. split; [destruct rest; [congruence | cbn; lia]|].
      destruct H; auto.
    + intros [Hlen H]. split; [destruct rest; [cbn in Hlen; lia | discriminate]|].
      destruct H; auto.
Qed.

(** X10.  Concatenating a non-empty array of defined maps never raises and
    returns a map whose text is the texts of the elements joined in array
    order. *)
Theorem concatenateMapList_joins (m : MapRepresentation)
    (ms : list MapRepresentation) :
  exists m',
    concatenateMapList (List.map Some (m :: ms)) = Ok (Some m')
    /\ mapText m' = List.concat (List.map mapText (m :: ms)).
Proof.
  cbn [List.map concatenateMapList List.concat]. revert m.
  induction ms as [| x ms IH]; intros m; cbn [List.map concatenateLoop List.concat].
  - exists m. now rewrite app_nil_r.
  - destruct (concatenateTwoMaps_defined m x) as (t & -> & Ht). cbn [bind].
    destruct (IH t) as (m' & -> & Hm'). exists m'.
    split; [reflexivity|]. now rewrite Hm', Ht, app_assoc.
Qed.

(** ** Branches without a child *)

(** X11.  A rope whose root branch lacks its left or its right child cannot
    be split: the split raises [TypeError] at every position, in both
    revisions, and so does [deleteRange] for all indices. *)
Theorem split_raises_when_root_lacks_child (rv : revision) (o : option Rope)
    (s position start end_ : Z) :
  splitAt rv (RopeBranch None o s) position = Err TypeError
  /\ splitAt rv (RopeBranch o None s) position = Err TypeError
  /\ deleteRange (RopeBranch None o s) start end_ = Err TypeError
  /\ deleteRange (RopeBranch o None s) start end_ = Err TypeError.
Proof.
  split; [apply splitAt_missing_left|].
  split; [apply splitAt_missing_right|].
  unfold deleteRange.
  now rewrite splitAt_missing_left, splitAt_missing_right.
Qed.

(** X12.  [insert] into a rope whose root branch lacks a child raises
    [TypeError] at every location other than 0. *)
Theorem insert_raises_when_root_lacks_child (rv : revision) (o : option Rope)
    (s : Z) (t : text) (location : Z) :
  location <> 0 ->
  insert rv (RopeBranch None o s) t location = Err TypeError
  /\ insert rv (RopeBranch o None s) t location = Err TypeError.
Proof.
  intros Hne. unfold insert. rewrite (proj2 (Z.eqb_neq location 0) Hne).
  now rewrite splitAt_missing_left, splitAt_missing_right.
Qed.

Lemma insert_raises_when_root_lacks_child_witness :
  insert LibRope (RopeBranch None (Some (RopeLeaf (str "b"))) 1) (str "X") 1
  = Err TypeError
  /\ insert LibRope (RopeBranch (Some (RopeLeaf (str "b"))) None 1) (str "X") 1
     = Err TypeError.
Proof.
  apply (insert_raises_when_root_lacks_child LibRope (Some (RopeLeaf (str "b")))
           1 (str "X") 1).
  discriminate.
Defined.

(** X13.  [insert] at location 0 never raises, on any rope: it returns a new
    branch whose left child is a leaf with the inserted text and whose right
    child is the rope rebuilt from its map, so the text is the inserted text
    followed by the text of the rope. *)
Theorem insert_at_0_prepends (rv : revision) (r : Rope) (t : text) :
  insert rv r t 0
  = Ok (Rope.new (Some (RopeLeaf t)) (Some (createRopeFromMap (Rope.toMap r))))
  /\ Rope.toString
       (Rope.new (Some (RopeLeaf t)) (Some (createRopeFromMap (Rope.toMap r))))
     = t ++ Rope.toString r.
Proof.
  split.
  - unfold insert, concatenateTwoMaps. cbn [Z.eqb].
    destruct (getSize_defined (Rope.toMap r)) as (n & ->). reflexivity.
  - cbn [Rope.new Rope.toString].
    now rewrite toString_createRopeFromMap, mapText_toMap.
Qed.





(** ** Round trips on a leaf (part_000) *)

(** X16.  In part_000, inserting a text into a leaf at a location between 0
    and its length and then deleting the range that the text occupies gives
    back the text of the leaf; neither call raises. *)
Theorem insert_then_delete_leaf (s t : text) (location : Z) :
  0 <= location <= len s ->
  exists r1 r2,
    insert Part000 (RopeLeaf s) t location = Ok r1
    /\ deleteRange r1 location (location + len t) = Ok r2
    /\ Rope.toString r2 = s.
Proof.
  intros Hloc.
  destruct (insert_leaf_part000 s t location) as (r1 & H1 & Hf & Hs & Ht1).
  destruct (deleteRange_full r1 location (location + len t) Hs Hf)
    as (r2 & H2 & Ht2).
  exists r1, r2. split; [exact H1|]. split; [exact H2|].
  rewrite Ht2, Ht1. unfold spliceAt.
  set (n := Z.to_nat location).
  assert (Hn : List.length (firstn n s) = n)
    by (rewrite length_firstn; unfold n, len in *; lia).
  destruct (app_exact (firstn n s) (t ++ skipn n s) n Hn) as [-> ->].
  replace (Z.to_nat (location + len t - len (firstn n s)))
    with (List.length t) by (unfold len in *; lia).
  destruct (app_exact t (skipn n s) (List.length t) eq_refl) as [_ ->].
  apply firstn_skipn.
Qed.

Lemma insert_then_delete_leaf_witness :
  exists r1 r2,
    insert Part000 (RopeLeaf (str "Hello World")) (str "Big ") 6 = Ok r1
    /\ deleteRange r1 6 (6 + len (str "Big ")) = Ok r2
    /\ Rope.toString r2 = str "Hello World".
Proof.
  apply (insert_then_delete_leaf (str "Hello World") (str "Big ") 6).
  cbn. lia.
Defined.

(** X17.  In part_000, deleting a range [0 <= start <= end <= length] from
    a leaf and inserting the removed characters back at [start] gives back
    the text of the leaf; neither call raises. *)
Theorem delete_then_insert_leaf (s : text) (start end_ : Z) :
  0 <= start <= end_ -> end_ <= len s ->
  exists r1 r2,
    deleteRange (RopeLeaf s) start end_ = Ok r1
    /\ insert Part000 r1 (substring s start (Some end_)) start = Ok r2
    /\ Rope.toString r2 = s.
Proof.
  intros Hse Hend.
  destruct (deleteRange_leaf s start end_ Hse Hend) as (r1 & H1 & Hf & Hs & Ht1).
  destruct (insert_full Part000 r1 (substring s start (Some end_)) start Hs Hf)
    as (r2 & H2 & Ht2).
  exists r1, r2. split; [exact H1|]. split; [exact H2|].
  rewrite Ht2, Ht1. unfold spliceAt.
  set (a := Z.to_nat start). set (b := Z.to_nat end_).
  assert (Hab : (a <= b <= List.length s)%nat) by (unfold a, b, len in *; lia).
  assert (Ha : List.length (firstn a s) = a) by (rewrite length_firstn; lia).
  destruct (app_exact (firstn a s) (skipn b s) a Ha) as [-> ->].
  unfold substring, clampIndex. fold a. fold b.
  rewrite (Nat.min_l a), (Nat.min_l b), Nat.min_l, Nat.max_r by lia.
  replace (skipn b s) with (skipn (b - a) (skipn a s))
    by (rewrite skipn_skipn; f_equal; lia).
  now rewrite firstn_skipn, firstn_skipn.
Qed.

Lemma delete_then_insert_leaf_witness :
  exists r1 r2,
    deleteRange (RopeLeaf (str "Hello Big World")) 6 10 = Ok r1
    /\ insert Part000 r1 (substring (str "Hello Big World") 6 (Some 10)) 6 = Ok r2
    /\ Rope.toString r2 = str "Hello Big World".
Proof.
  apply (delete_then_insert_leaf (str "Hello Big World") 6 10); cbn; lia.
Defined.

(** ** Concatenation does not rebalance *)

(** X18.  Concatenating an array of [1 + k] leaves folds them into a chain
    that leans to the left: the rope built from the result has height
    [1 + k], it is balanced exactly when [k < 3], and its text is the texts
    of the leaves in array order. *)
Theorem concatenation_builds_left_chain (t0 : text) (ts : list text) :
  exists m,
    concatenateMapList (List.map (fun x => Some (MapLeaf x)) (t0 :: ts))
    = Ok (Some m)
    /\ Rope.height (createRopeFromMap m) = 1 + Z.of_nat (List.length ts)
    /\ Rope.isBalanced (createRopeFromMap m) = (Z.of_nat (List.length ts) <? 3)
    /\ mapText m = List.concat (t0 :: ts).
Proof.
  destruct ts as [| t ts].
  - exists (MapLeaf t0). cbn. now rewrite app_nil_r.
  - destruct (concatenateLoop_leaves ts t (MapLeaf t0)) as (m & Hm & Hh & Hb & Ht).
    exists m. split; [exact Hm|]. rewrite Hh, Hb, Ht.
    cbn [createRopeFromMap Rope.height Rope.isBalanced andb mapText List.length
         List.concat].
    repeat split; [lia|]. f_equal. lia.
Qed.

(** ** The two revisions of [insert] *)

(** X19.  For every rope, text and integer location, [insert] of rope.ts
    and [insert] of part_000 raise the same exception or both return ropes of
    equal text and equal size. *)
Theorem insert_revisions_agree (r : Rope) (t : text) (location : Z) :
  sameRope (insert LibRope r t location) (insert Part000 r t location).
Proof.
  unfold insert. destruct (location =? 0).
  - destruct (concatenateTwoMaps (Some (Rope.toMap (RopeLeaf t)))
                (Some (Rope.toMap r))); cbn; auto.
  - unfold splitAt.
    pose proof (splitHelper_revisions (Rope.toMap r) (location - 1) []) as H.
    unfold sameHelper in H.
    destruct (splitHelper LibRope (Rope.toMap r) (location - 1) [])
      as [[m1 l1] | e1],
      (splitHelper Part000 (Rope.toMap r) (location - 1) []) as [[m2 l2] | e2];
      try contradiction; cbn [bind]; [|exact H].
    destruct H as [Ht ->].
    destruct (concatenateMapList l2) as [o | e]; cbn [bind]; [|reflexivity].
    destruct o as [mr|]; cbn [createRopeFromMapU bind]; [|reflexivity].
    destruct (concatenateMapList_three (Rope.toMap (createRopeFromMap m1))
                (Rope.toMap (RopeLeaf t)) (Rope.toMap (createRopeFromMap mr)))
      as (c1 & -> & Hc1).
    destruct (concatenateMapList_three (Rope.toMap (createRopeFromMap m2))
                (Rope.toMap (RopeLeaf t)) (Rope.toMap (createRopeFromMap mr)))
      as (c2 & -> & Hc2).
    cbn [bind createRopeFromMapU sameRope].
    rewrite !toString_createRopeFromMap, !size_createRopeFromMap, Hc1, Hc2.
    rewrite !mapText_toMap, !toString_createRopeFromMap, Ht. auto.
Qed.

(** ** Sizes of the two sides of a split *)

(** X20.  On a rope built by the constructors all of whose branches have
    both children, a split at a valid position [0 <= position < size]
    returns a left side of size [position + 1] and a right side of size
    [size - position - 1]. *)
Theorem splitAt_sizes (rv : revision) (r : Rope) (position : Z) :
  sizeInvariant r = true -> bothChildren r = true ->
  0 <= position < Rope.size r ->
  exists a b,
    splitAt rv r position = Ok (a, b)
    /\ Rope.size a = position + 1
    /\ Rope.size b = Rope.size r - position - 1.
Proof.
  intros Hs Hf Hpos.
  destruct (splitAt_full rv r position Hs Hf)
    as (a & b & H & Ha & Hb & Hsa & Hsb & _).
  exists a, b. split; [exact H|].
  rewrite (size_toString a Hsa), (size_toString b Hsb), Ha, Hb.
  rewrite (size_toString r Hs) in *. unfold len in *.
  rewrite length_firstn, length_skipn. lia.
Qed.

Lemma splitAt_sizes_witness :
  exists a b,
    splitAt LibRope helloWorld 4 = Ok (a, b)
    /\ Rope.size a = 4 + 1
    /\ Rope.size b = Rope.size helloWorld - 4 - 1.
Proof.
  apply (splitAt_sizes LibRope helloWorld 4); [reflexivity | reflexivity | cbn; lia].
Defined.
